(** * AgriCLIP model service: the decision pipeline of [/classify]

    A shallow embedding of [agriclip_service/main.py]: region extraction,
    best-region selection, domain estimation, affected area, severity,
    disease decision, narrative and recommendations.

    Conventions of the embedding.
    - Python [float] is IEEE binary64: it is Rocq's primitive [float], and
      a literal such as [0.8] denotes the same nearest double in both.
    - Python [int] is [Z].
    - Python [str] is [string]; labels are ASCII (COCO and ImageNet category
      names, or a decimal index), so [lower] only has to fold [A-Z].
    - A raised exception is [None] in the option monad; [classify] catches
      every exception and answers with status 500, so [None] at the top
      level is the failure response. The response is built inside the
      [try]: its rendering, which refuses a float that is NaN or infinite,
      is [json_response].
    - The two models, the decoder and [Image.crop] are collaborators: they
      are the variables of [Section Service]. What a statement relies on in
      Pillow is a hypothesis of that statement: [decodes_nonempty] for
      [Image.open] and [crop_checks_order] for [Image.crop]. *)

From Stdlib Require Import ZArith Lia Ascii String Floats.
From stdpp Require Import base option list gmap strings pretty.
Set Warnings "-inexact-float".

Local Open Scope string_scope.
Local Open Scope list_scope.
Local Open Scope Z_scope.

(** ** Python strings *)

Module PyStr.

(** [str.lower()] on one ASCII character. *)
Definition lower_ascii (c : ascii) : ascii :=
  let n := nat_of_ascii c in
  if ((65 <=? n)%nat && (n <=? 90)%nat)%bool then ascii_of_nat (n + 32) else c.

(** [s.lower()] *)
Fixpoint lower (s : string) : string :=
  match s with
  | EmptyString => EmptyString
  | String c s' => String (lower_ascii c) (lower s')
  end.

(** [s.startswith(p)], the inner step of the substring search. *)
Fixpoint starts_with (p s : string) : bool :=
  match p, s with
  | EmptyString, _ => true
  | String _ _, EmptyString => false
  | String a p', String b s' => bool_decide (a = b) && starts_with p' s'
  end.

(** [tok in s] for strings: [tok] occurs in [s] as a contiguous substring. *)
Fixpoint contains (s tok : string) : bool :=
  starts_with tok s ||
  match s with
  | EmptyString => false
  | String _ s' => contains s' tok
  end.

(** [any(tok in s for tok in toks)] *)
Definition any_in (toks : list string) (s : string) : bool :=
  existsb (contains s) toks.

(** The mathematical reading of "contains [tok] as a substring". *)
Definition substring_of (tok s : string) : Prop :=
  ∃ pre post : string, s = pre +:+ tok +:+ post.

End PyStr.

(** ** Python numbers *)

Module PyNum.

(** Magnitude and sign of a finite double [(-1)^s * m * 2^e], cut to an
    integer by [cut num den] where the value is [num / den]. *)
Definition finite_to_Z (cut : Z → Z → Z) (s : bool) (m : positive) (e : Z) : Z :=
  let mag := if 0 <=? e then Z.pos m * 2 ^ e else cut (Z.pos m) (2 ^ (- e)) in
  if s then - mag else mag.

(** Round half to even of the non-negative fraction [num / den]. *)
Definition half_even (num den : Z) : Z :=
  let q := num / den in
  match 2 * (num mod den) ?= den with
  | Lt => q
  | Gt => q + 1
  | Eq => if Z.even q then q else q + 1
  end.

(** [int(x)] on a float: truncation towards zero; raises on NaN and on
    the infinities. *)
Definition sf_int (x : spec_float) : option Z :=
  match x with
  | S754_zero _ => Some 0
  | S754_finite s m e => Some (finite_to_Z Z.div s m e)
  | S754_infinity _ | S754_nan => None
  end.

(** [round(x)] on a float, one argument: the nearest integer, ties to the
    even one; raises on NaN and on the infinities. *)
Definition sf_round (x : spec_float) : option Z :=
  match x with
  | S754_zero _ => Some 0
  | S754_finite s m e => Some (finite_to_Z half_even s m e)
  | S754_infinity _ | S754_nan => None
  end.

Definition py_int (x : float) : option Z := sf_int (Prim2SF x).
Definition py_round (x : float) : option Z := sf_round (Prim2SF x).

(** [a / b] on two ints (true division): the correctly rounded double of
    the exact quotient; [ZeroDivisionError] when [b = 0], [OverflowError]
    when the quotient is too large for a float. *)
Definition int_true_div (a b : Z) : option spec_float :=
  let sf (z : Z) :=
    match z with
    | Z0 => S754_zero false
    | Z.pos p => S754_finite false p 0
    | Z.neg p => S754_finite true p 0
    end in
  if b =? 0 then None
  else match SFdiv prec emax (sf a) (sf b) with
       | S754_infinity _ | S754_nan => None
       | q => Some q
       end.

(** [int(round(a / b))] for ints [a], [b]. *)
Definition round_div (a b : Z) : option Z :=
  q ← int_true_div a b; sf_round q.

(** [int(round(x * 100))], the integer percent of a confidence. *)
Definition percent (x : float) : option Z := py_round (x * 100)%float.

End PyNum.

Import PyStr PyNum.

(** ** Data model *)

(** A pixel box [[x1, y1, x2, y2]]. *)
Definition FBox : Type := float * float * float * float.
Definition Box : Type := Z * Z * Z * Z.

(** One entry of [detect_objects]: [{"label", "confidence", "box"}]. *)
Record Detection := mkDetection {
  det_label : string;
  det_confidence : float;
  det_box : FBox
}.

(** The result of [classify_crop]: [{"label", "confidence", "top3"}]. *)
Record ClsResult := mkClsResult {
  cls_label : string;
  cls_confidence : float;
  cls_top3 : list (string * float)
}.

(** One entry of [classified_regions]. *)
Record Entry := mkEntry {
  entry_label : string;
  entry_confidence : float;
  entry_top3 : list (string * float);
  entry_box : Box
}.

(** [data.classification] of the response; JSON [null] is [None]. *)
Record Classification := mkClassification {
  diseaseDetected : bool;
  diseaseName : string;
  confidence : Z;
  severity : option string;
  affectedArea : option Z;
  recommendations : list string;
  processingTime : Z;
  model : string
}.

(** [data] of the successful response. *)
Record AnalysisResult := mkAnalysisResult {
  classification : Classification;
  report : string;
  detections : list Detection;
  regions : list Entry
}.

(** The local variables of [classify] once the domain is settled
    (line 220), from which the rest of the body computes the report. *)
Record Locals := mkLocals {
  l_width : Z;
  l_height : Z;
  l_detections : list Detection;
  l_boxes_for_regions : list Box;
  l_classified_regions : list Entry;
  l_best_idx : nat;
  l_best_conf : float;
  l_primary_label : string;
  l_domain : string
}.

(** ** Domain estimation *)

Definition animal_tokens : gset string :=
  {[ "cow"; "sheep"; "horse"; "dog"; "cat"; "bird"; "zebra"; "giraffe"; "bear" ]}.
Definition plant_tokens : gset string := {[ "potted plant"; "plant" ]}.
Definition fish_tokens : gset string := {[ "fish"; "shark"; "ray" ]}.

Definition fish_label_tokens : list string :=
  ["shark"; "ray"; "tench"; "goldfish"; "salmon"; "trout"; "tilapia"; "cod"; "mackerel"].
Definition plant_label_tokens : list string :=
  ["leaf"; "plant"; "tomato"; "potato"; "maize"; "corn"; "wheat"; "rice"].
Definition animal_label_tokens : list string :=
  ["cow"; "sheep"; "horse"; "cat"; "dog"; "tiger"; "lion"].

(** Truth value of a set: non-empty. *)
Definition nonempty (s : gset string) : bool := bool_decide (s ≠ ∅).

(** [labels = {d["label"].lower() for d in detections}] *)
Definition detection_labels (detections : list Detection) : gset string :=
  list_to_set ((λ d, lower (det_label d)) <$> detections).

Definition estimate_domain (detections : list Detection) (cls_label : string) : string :=
  let labels := detection_labels detections in
  if nonempty (labels ∩ animal_tokens) then "livestock"
  else if nonempty (labels ∩ plant_tokens) then "plant"
  else
    let lower := lower cls_label in
    if any_in fish_label_tokens lower then "fish"
    else if any_in plant_label_tokens lower then "plant"
    else if any_in animal_label_tokens lower then "livestock"
    else "plant".

(** ** Narrative *)

(** The token list of [make_narrative]. *)
Definition narrative_tokens : list string :=
  ["blight"; "mildew"; "rust"; "fungus"; "spot"].

Definition make_narrative (domain cls_label : string) (cls_conf : float)
    (detections : list Detection) : option string :=
  pct ← percent cls_conf;
  Some
    (if decide (domain = "plant") then
       if any_in narrative_tokens (lower cls_label) then
         "This plant shows signs of " +:+ cls_label +:+ ". Confidence " +:+ pretty pct
           +:+ "%. Consider isolating the affected area and applying appropriate treatment."
       else
         "This appears to be a healthy plant or foliage (" +:+ cls_label
           +:+ "). Confidence " +:+ pretty pct +:+ "%."
     else if decide (domain = "livestock") then
       "This looks like " +:+ cls_label +:+ ". Confidence " +:+ pretty pct
         +:+ "%. The animal appears healthy."
     else if decide (domain = "fish") then
       "This appears to be a " +:+ cls_label +:+ ". Confidence " +:+ pretty pct
         +:+ "%. The fish looks healthy."
     else
       "Detected subject classified as " +:+ cls_label +:+ " with " +:+ pretty pct
         +:+ "% confidence.").

(** ** The blocks of [classify] *)

(** The clamp of one detection box:
    [x1 = max(0, int(x1)); y1 = max(0, int(y1));
     x2 = min(width, int(x2)); y2 = min(height, int(y2))]. *)
Definition clamp_box (width height : Z) (b : FBox) : option Box :=
  let '(x1, y1, x2, y2) := b in
  x1 ← py_int x1; y1 ← py_int y1; x2 ← py_int x2; y2 ← py_int y2;
  Some (Z.max 0 x1, Z.max 0 y1, Z.min width x2, Z.min height y2).

(** The update of [(best_idx, best_conf)] at region [i]:
    [if cls["confidence"] > best_conf: best_conf = ...; best_idx = i]. *)
Definition pick_best (i : nat) (conf : float) (best : nat * float) : nat * float :=
  if (best.2 <? conf)%float then (i, conf) else best.

(** Best-region selection on the sequence of confidences, regions numbered
    from [i]. *)
Fixpoint select_from (i : nat) (confs : list float) (best : nat * float) : nat * float :=
  match confs with
  | [] => best
  | c :: rest => select_from (S i) rest (pick_best i c best)
  end.

(** [best_idx = 0; best_conf = -1.0] and then the loop. *)
Definition select_best (confs : list float) : nat * float :=
  select_from 0 confs (0%nat, (-1.0)%float).

(** [domain = imageDomain or estimate_domain(detections, primary_label)] *)
Definition resolve_domain (imageDomain : option string) (detections : list Detection)
    (primary_label : string) : string :=
  match imageDomain with
  | Some d => if decide (d = "") then estimate_domain detections primary_label else d
  | None => estimate_domain detections primary_label
  end.

(** [region_area], the sum accumulated over [boxes_for_regions]. *)
Definition region_area (boxes : list Box) : Z :=
  fold_left (λ acc '(x1, y1, x2, y2), acc + Z.max 0 (x2 - x1) * Z.max 0 (y2 - y1)) boxes 0.

(** [affected_area_pct]; the outer option is an exception of [round]. *)
Definition affected_area_pct (domain : string) (width height : Z) (boxes : list Box)
    : option (option Z) :=
  if decide (domain = "plant") then
    let total_area := width * height in
    let region_area := region_area boxes in
    if 0 <? total_area then Some <$> round_div (100 * region_area) total_area
    else Some None
  else Some None.

(** [severity] *)
Definition severity_of (domain : string) (best_conf : float) : option string :=
  if decide (domain = "plant") then
    if (0.8 <=? best_conf)%float then Some "high"
    else if (0.6 <=? best_conf)%float then Some "medium"
    else Some "low"
  else None.

Definition disease_tokens : list string :=
  ["blight"; "mildew"; "rust"; "fungus"; "spot"; "mold"].

(** [disease_detected] *)
Definition disease_detected (domain primary_label : string) : bool :=
  if decide (domain = "plant") then any_in disease_tokens (lower primary_label) else false.

(** [disease_name] *)
Definition disease_name (domain primary_label : string) : string :=
  if disease_detected domain primary_label then primary_label
  else if decide (domain ≠ "plant") then primary_label else "Healthy".

(** [recommendations] *)
Definition recommendations_for (domain : string) (detected : bool) : list string :=
  if decide (domain = "plant") then
    if detected then
      [ "Isolate affected leaves to reduce spread.";
        "Apply appropriate fungicide as per local guidance.";
        "Ensure proper airflow and avoid overhead watering." ]
    else
      [ "Maintain regular watering and balanced fertilization.";
        "Monitor for any spots or discoloration." ]
  else if decide (domain = "livestock") then
    [ "Provide clean water and balanced feed.";
      "Monitor for signs of distress or illness." ]
  else if decide (domain = "fish") then
    [ "Maintain optimal water quality and temperature.";
      "Monitor for abnormal swimming or spots." ]
  else [].

(** [JSONResponse(...)], built inside the [try] (line 279): the content is
    rendered at once, by [json.dumps] with [allow_nan=False], which raises
    on a float that is NaN or infinite. The floats of the content are the
    confidence and the box of every detection and the confidence of every
    region and of every pair of its top three. *)
Definition json_float (f : float) : bool := is_finite f.

Definition json_detection (d : Detection) : bool :=
  let '(x1, y1, x2, y2) := det_box d in
  json_float (det_confidence d) && json_float x1 && json_float y1 && json_float x2
    && json_float y2.

Definition json_entry (e : Entry) : bool :=
  json_float (entry_confidence e) && forallb (λ p, json_float p.2) (entry_top3 e).

Definition json_content (r : AnalysisResult) : bool :=
  forallb json_detection (detections r) && forallb json_entry (regions r).

Definition json_response (r : AnalysisResult) : option AnalysisResult :=
  if json_content r then Some r else None.

(** ** The endpoint [/classify] *)

Section Service.

(** The uploaded file and the decoded RGB image. *)
Variables Upload Image : Type.
(** [pil_image_from_upload]: decoding may raise. *)
Variable pil_image_from_upload : Upload → option Image.
(** [Image.size], as [(width, height)]. *)
Variable size : Image → Z * Z.
(** [Image.crop(box)] *)
Variable crop : Image → Box → option Image.
(** The detector and the classifier. *)
Variable detect_objects : Image → option (list Detection).
Variable classify_crop : Image → option ClsResult.
(** The two readings of [time.time()]. *)
Variables start finish : float.

(** The loop over a non-empty [detections], appending to [regions] and
    [boxes_for_regions]. *)
Fixpoint extract_loop (pil_img : Image) (width height : Z) (detections : list Detection)
    (regions : list Image) (boxes_for_regions : list Box)
    : option (list Image * list Box) :=
  match detections with
  | [] => Some (regions, boxes_for_regions)
  | det :: rest =>
      b ← clamp_box width height (det_box det);
      cropped ← crop pil_img b;
      extract_loop pil_img width height rest (regions ++ [cropped]) (boxes_for_regions ++ [b])
  end.

(** Region extraction: one region per detection, or the whole image. *)
Definition extract_regions (pil_img : Image) (width height : Z)
    (detections : list Detection) : option (list Image * list Box) :=
  match detections with
  | [] => Some ([pil_img], [(0, 0, width, height)])
  | _ :: _ => extract_loop pil_img width height detections [] []
  end.

(** [for i, region in enumerate(regions)], from index [i] on. *)
Fixpoint classify_loop (boxes_for_regions : list Box) (i : nat) (regions : list Image)
    (classified_regions : list Entry) (best : nat * float)
    : option (list Entry * (nat * float)) :=
  match regions with
  | [] => Some (classified_regions, best)
  | region :: rest =>
      cls ← classify_crop region;
      box ← boxes_for_regions !! i;
      let entry := mkEntry (cls_label cls) (cls_confidence cls) (cls_top3 cls) box in
      classify_loop boxes_for_regions (S i) rest (classified_regions ++ [entry])
        (pick_best i (cls_confidence cls) best)
  end.

(** Lines 180 to 220: decode, detect, extract, classify every region,
    pick the best one and settle the domain. *)
Definition resolve (file : Upload) (imageDomain : option string) : option Locals :=
  pil_img ← pil_image_from_upload file;
  let '(width, height) := size pil_img in
  detections ← detect_objects pil_img;
  '(regions, boxes_for_regions) ← extract_regions pil_img width height detections;
  '(classified_regions, (best_idx, best_conf)) ←
    classify_loop boxes_for_regions 0 regions [] (0%nat, (-1.0)%float);
  primary ← classified_regions !! best_idx;
  let primary_label := entry_label primary in
  let domain := resolve_domain imageDomain detections primary_label in
  Some (mkLocals width height detections boxes_for_regions classified_regions
          best_idx best_conf primary_label domain).

(** Lines 222 to 297: the fields of the report, from the locals, and the
    response built from them. *)
Definition assemble (l : Locals) : option AnalysisResult :=
  let domain := l_domain l in
  let primary_label := l_primary_label l in
  let best_conf := l_best_conf l in
  affected_area_pct ←
    affected_area_pct domain (l_width l) (l_height l) (l_boxes_for_regions l);
  let severity := severity_of domain best_conf in
  let disease_detected := disease_detected domain primary_label in
  let disease_name := disease_name domain primary_label in
  narrative ← make_narrative domain primary_label best_conf (l_detections l);
  let recommendations := recommendations_for domain disease_detected in
  processing_time ← py_round ((finish - start) * 1000)%float;
  confidence ← percent best_conf;
  json_response
    (mkAnalysisResult
       (mkClassification disease_detected disease_name confidence severity
          affected_area_pct recommendations processing_time
          "agriclip-yolov8-efficientnet-b3")
       narrative (l_detections l) (l_classified_regions l)).

(** The body of the [try]; [None] is the [except] branch (status 500). *)
Definition classify (file : Upload) (imageDomain : option string) : option AnalysisResult :=
  resolve file imageDomain ≫= assemble.

End Service.

(** ** Deterministic stand-ins for the collaborators

    An image is its size and a table of what the classifier answers on a
    crop of a given size; the detector answers a fixed list. *)

Module Stub.

Record image := mkImage {
  img_size : Z * Z;
  img_detections : list Detection;
  img_classes : Z * Z → ClsResult
}.

(** An upload decodes when neither side of the picture is empty. *)
Definition decode (img : image) : option image :=
  if (0 <? (img_size img).1) && (0 <? (img_size img).2) then Some img else None.

(** A crop is refused when the box has its right left of its left or its
    lower above its upper. *)
Definition crop (img : image) (b : Box) : option image :=
  let '(x1, y1, x2, y2) := b in
  if (x2 <? x1) || (y2 <? y1) then None
  else Some (mkImage (x2 - x1, y2 - y1) [] (img_classes img)).

Definition detect (img : image) : option (list Detection) := Some (img_detections img).

Definition classify_crop (img : image) : option ClsResult :=
  Some (img_classes img (img_size img)).

Definition locals (img : image) (imageDomain : option string) : option Locals :=
  resolve image image decode img_size crop detect classify_crop img imageDomain.

Definition run (img : image) (imageDomain : option string) : option AnalysisResult :=
  classify image image decode img_size crop detect classify_crop 0%float 0.25%float
    img imageDomain.

(** A 200 x 200 photograph with one detected sheep. *)
Definition sheep_photo : image :=
  mkImage (200, 200)
    [mkDetection "sheep" 0.95 (10, 10, 50, 50)%float]
    (λ _, mkClsResult "sheep" 0.88 []).

(** A 100 x 100 photograph without detections, classified as a blighted leaf. *)
Definition blight_photo : image :=
  mkImage (100, 100) [] (λ _, mkClsResult "Early Blight" 0.72 []).

(** A 100 x 100 photograph without detections, classified as a slime mold. *)
Definition mold_photo : image :=
  mkImage (100, 100) [] (λ _, mkClsResult "Slime Mold" 0.9 []).

(** A 100 x 100 photograph with the same 10 x 10 box detected twice. *)
Definition overlap_photo : image :=
  mkImage (100, 100)
    [mkDetection "vase" 0.9 (0.5, 0.5, 10.9, 10.9)%float;
     mkDetection "vase" 0.5 (0.5, 0.5, 10.9, 10.9)%float]
    (λ _, mkClsResult "daisy" 0.9 []).

(** A 100 x 100 photograph with one detection to the right of the picture. *)
Definition outside_photo : image :=
  mkImage (100, 100)
    [mkDetection "vase" 0.9 (500, 0, 600, 50)%float]
    (λ _, mkClsResult "daisy" 0.5 []).

End Stub.

(** ** Vocabulary of the statements *)

(** The order of the doubles. A float that is not NaN has a key, and the
    comparison of two floats is the lexicographic comparison of their keys:
    the class (negative infinity, negative, zero, positive, positive
    infinity), then exponent and mantissa, both negated below zero. *)
Module FloatOrder.

Definition key : Type := Z * Z * Z.

Definition sf_key (x : spec_float) : option key :=
  match x with
  | S754_nan => None
  | S754_infinity s => Some (if s then -2 else 2, 0, 0)
  | S754_zero _ => Some (0, 0, 0)
  | S754_finite s m e => Some (if s then (-1, - e, Z.neg m) else (1, e, Z.pos m))
  end.

Definition lex_compare (a b : key) : comparison :=
  let '(a1, a2, a3) := a in
  let '(b1, b2, b3) := b in
  match a1 ?= b1 with
  | Eq => match a2 ?= b2 with Eq => a3 ?= b3 | c => c end
  | c => c
  end.

Definition fkey (x : float) : option key := sf_key (Prim2SF x).

End FloatOrder.

Import FloatOrder.

(** A confidence of the data model: a float in [[0, 1]]. *)
Definition valid_conf (c : float) : Prop :=
  (0 <=? c)%float = true ∧ (c <=? 1)%float = true.

(** [(k, b)] is the first maximum of a non-empty [confs]: [b] stands at
    index [k], nothing is above [b], and everything before [k] is below. *)
Definition first_maximum (confs : list float) (best : nat * float) : Prop :=
  let '(k, b) := best in
  confs !! k = Some b ∧
  (∀ (j : nat) c, confs !! j = Some c → (c <=? b)%float = true) ∧
  (∀ (j : nat) c, (j < k)%nat → confs !! j = Some c → (c <? b)%float = true).

(** The state of the selection after the regions [seen]. *)
Definition best_so_far (seen : list float) (best : nat * float) : Prop :=
  (seen = [] ∧ best = (0%nat, (-1.0)%float)) ∨ first_maximum seen best.

(** What the service relies on in Pillow. [Image.open] gives no picture
    with an empty side. *)
Definition decodes_nonempty {Upload Image : Type}
    (pil_image_from_upload : Upload → option Image) (size : Image → Z * Z) : Prop :=
  ∀ file img, pil_image_from_upload file = Some img → 0 < (size img).1 ∧ 0 < (size img).2.




(** The area of one box as the affected-area sum counts it. *)
Definition box_area (b : Box) : Z :=
  let '(x1, y1, x2, y2) := b in Z.max 0 (x2 - x1) * Z.max 0 (y2 - y1).

(** The sum over all region boxes, every box counted on its own. *)
Definition sum_of_areas (boxes : list Box) : Z :=
  foldr (λ b s, box_area b + s) 0 boxes.

(** The three domains of the estimator. *)
Definition known_domain (d : string) : Prop :=
  d = "plant" ∨ d = "livestock" ∨ d = "fish".

(** Some detection label, lowered, is in the token set. *)
Definition detected_in (tokens : gset string) (detections : list Detection) : Prop :=
  ∃ d, d ∈ detections ∧ lower (det_label d) ∈ tokens.

(** The label, lowered, contains one of the tokens as a substring. *)
Definition mentions (tokens : list string) (label : string) : Prop :=
  ∃ tok, tok ∈ tokens ∧ substring_of tok (lower label).

(** *** The rules of the report, over the locals [l] of a run and the
    [classification] [c] it assembles *)

(** Presence of [severity] and [affectedArea]. *)
Definition presence_rule (l : Locals) (c : Classification) : Prop :=
  (is_Some (severity c) ↔ l_domain l = "plant") ∧
  (is_Some (affectedArea c) ↔ l_domain l = "plant" ∧ 0 < l_width l * l_height l) ∧
  (l_domain l ≠ "plant" → severity c = None ∧ affectedArea c = None).

(** The presence rule as the specification words it. *)
Definition presence_iff_plant (l : Locals) (c : Classification) : Prop :=
  (is_Some (severity c) ↔ l_domain l = "plant") ∧
  (is_Some (affectedArea c) ↔ l_domain l = "plant").

(** [diseaseDetected] and [diseaseName]. *)
Definition disease_rule (l : Locals) (c : Classification) : Prop :=
  (diseaseDetected c = true ↔
     l_domain l = "plant" ∧ mentions disease_tokens (l_primary_label l)) ∧
  (l_domain l ≠ "plant" → diseaseDetected c = false) ∧
  (diseaseDetected c = true ∨ l_domain l ≠ "plant" → diseaseName c = l_primary_label l) ∧
  (l_domain l = "plant" → diseaseDetected c = false → diseaseName c = "Healthy").

(** [affectedArea] in the plant domain. *)
Definition area_rule (l : Locals) (c : Classification) : Prop :=
  l_domain l = "plant" →
  let total_area := l_width l * l_height l in
  (0 < total_area →
     is_Some (affectedArea c) ∧
     affectedArea c = round_div (100 * sum_of_areas (l_boxes_for_regions l)) total_area) ∧
  (total_area ≤ 0 → affectedArea c = None).

(** [severity] in the plant domain. *)
Definition severity_rule (l : Locals) (c : Classification) : Prop :=
  l_domain l = "plant" →
  let b := l_best_conf l in
  ((0.8 <=? b)%float = true → severity c = Some "high") ∧
  ((0.6 <=? b)%float = true → (b <? 0.8)%float = true → severity c = Some "medium") ∧
  ((0.8 <=? b)%float = false →
   ¬ ((0.6 <=? b)%float = true ∧ (b <? 0.8)%float = true) → severity c = Some "low").

(** The report of a domain that is none of plant, livestock, fish. *)
Definition fallback_report (l : Locals) (r : AnalysisResult) : Prop :=
  let c := classification r in
  severity c = None ∧ affectedArea c = None ∧
  diseaseDetected c = false ∧ diseaseName c = l_primary_label l ∧
  recommendations c = [] ∧
  percent (l_best_conf l) = Some (confidence c) ∧
  report r = "Detected subject classified as " +:+ l_primary_label l +:+ " with "
               +:+ pretty (confidence c) +:+ "% confidence.".

(** ** The remaining functions of the service *)

(** *** More of Python's strings and lists

    For [strip] a character is a code point below 256, one per [ascii]. *)

Module PyText.

(** [c.isspace()] on a code point below 256: tab to carriage return, the
    four separators 28 to 31, space, next line (133) and no-break space
    (160). *)
Definition is_space (c : ascii) : bool :=
  let n := nat_of_ascii c in
  (((9 <=? n)%nat && (n <=? 13)%nat) || ((28 <=? n)%nat && (n <=? 32)%nat)
   || (n =? 133)%nat || (n =? 160)%nat)%bool.

(** [s.lstrip()] *)
Fixpoint lstrip (s : string) : string :=
  match s with
  | EmptyString => EmptyString
  | String c s' => if is_space c then lstrip s' else s
  end.

(** [s.rstrip()] *)
Fixpoint rstrip (s : string) : string :=
  match s with
  | EmptyString => EmptyString
  | String c s' =>
      match rstrip s' with
      | EmptyString => if is_space c then EmptyString else String c EmptyString
      | t => String c t
      end
  end.

(** [s.strip()] *)
Definition strip (s : string) : string := rstrip (lstrip s).

(** Truth value of a string: non-empty. *)
Definition nonempty_str (s : string) : bool :=
  match s with EmptyString => false | String _ _ => true end.

(** Truth value of an optional string: neither [None] nor empty. *)
Definition truthy (s : option string) : bool :=
  match s with Some s => nonempty_str s | None => false end.

(** [l[i]] on a list, with Python's negative indices; [IndexError] is
    [None]. *)
Definition py_getitem {A : Type} (l : list A) (i : Z) : option A :=
  let n := Z.of_nat (length l) in
  if 0 <=? i then l !! Z.to_nat i
  else if - n <=? i then l !! Z.to_nat (n + i)
  else None.

(** Every character of the string is whitespace. *)
Definition all_space (s : string) : Prop :=
  ∀ c, c ∈ list_ascii_of_string s → is_space c = true.

(** The string neither starts nor ends with whitespace. *)
Definition trimmed (s : string) : Prop :=
  (∀ c s', s = String c s' → is_space c = false) ∧
  (∀ c s', s = s' +:+ String c EmptyString → is_space c = false).

End PyText.

Import PyText.

(** *** [detect_objects]: from the detector's output to the detections *)

(** [outputs], the dictionary the detector returns for one image; a missing
    key is [None]. The tensors are read as lists: [boxes[i].tolist()],
    [int(labels[i].item())], [float(scores[i].item())]. *)
Record DetectorOutput := mkDetectorOutput {
  out_boxes : option (list FBox);
  out_labels : option (list Z);
  out_scores : option (list float)
}.

(** [names[cls_idx] if cls_idx < len(names) else str(cls_idx)], the label of
    a class index; [_detector.labels] is set by every branch of
    [load_models], so the [hasattr] test holds. *)
Definition class_name (names : list string) (cls_idx : Z) : option string :=
  if cls_idx <? Z.of_nat (length names) then py_getitem names cls_idx
  else Some (pretty cls_idx).

(** The body of the loop at index [i]. *)
Definition detection_at (names : list string) (boxes : list FBox) (labels : list Z)
    (scores : list float) (i : nat) : option Detection :=
  xyxy ← boxes !! i;
  conf ← scores !! i;
  cls_idx ← labels !! i;
  cls_name ← class_name names cls_idx;
  Some (mkDetection cls_name conf xyxy).

(** [for i in range(...)], appending to [detections]. *)
Fixpoint detect_loop (names : list string) (boxes : list FBox) (labels : list Z)
    (scores : list float) (range : list nat) (detections : list Detection)
    : option (list Detection) :=
  match range with
  | [] => Some detections
  | i :: rest =>
      d ← detection_at names boxes labels scores i;
      detect_loop names boxes labels scores rest (detections ++ [d])
  end.

(** Lines 82 to 97 of [detect_objects]. *)
Definition detections_of (names : list string) (outputs : DetectorOutput)
    : option (list Detection) :=
  match out_boxes outputs, out_labels outputs, out_scores outputs with
  | Some boxes, Some labels, Some scores =>
      detect_loop names boxes labels scores (seq 0 (Nat.min (length boxes) 50)) []
  | _, _, _ => Some []
  end.

(** *** [classify_crop]: from the classifier's scores to the result *)

(** What the tensor operations give for one region: [probs.max(dim=1)] as
    [(conf_val, idx_val)] and [torch.topk(probs, k=3, dim=1)] as the pairs
    [(c, i)] of the [zip]. *)
Record Scores := mkScores {
  sc_conf : float;
  sc_idx : Z;
  sc_top3 : list (float * Z)
}.

(** [labels[idx] if labels and idx < len(labels) else str(idx)], where
    [labels] is the global [_effnet_labels], [None] before loading. *)
Definition effnet_label (labels : option (list string)) (idx : Z) : option string :=
  match labels with
  | Some names =>
      if (bool_decide (names ≠ []) && (idx <? Z.of_nat (length names)))%bool
      then py_getitem names idx
      else Some (pretty idx)
  | None => Some (pretty idx)
  end.

(** The loop over [zip(top3_conf[0], top3_idx[0])]. *)
Fixpoint top3_loop (labels : option (list string)) (pairs : list (float * Z))
    (top3 : list (string * float)) : option (list (string * float)) :=
  match pairs with
  | [] => Some top3
  | (c, li) :: rest =>
      ln ← effnet_label labels li;
      top3_loop labels rest (top3 ++ [(ln, c)])
  end.

(** Lines 110 to 120 of [classify_crop]. *)
Definition result_of (labels : option (list string)) (s : Scores) : option ClsResult :=
  label ← effnet_label labels (sc_idx s);
  top3 ← top3_loop labels (sc_top3 s) [];
  Some (mkClsResult label (sc_conf s) top3).

(** *** [text_best] *)

(** A value of the JSON body; [VOther] is a float, a list or an object,
    given by the text [str] makes of it. *)
Inductive PyValue :=
  | VNone
  | VBool (b : bool)
  | VInt (z : Z)
  | VStr (s : string)
  | VOther (text : string).

(** [str(v)] *)
Definition py_str (v : PyValue) : string :=
  match v with
  | VNone => "None"
  | VBool true => "True"
  | VBool false => "False"
  | VInt z => pretty z
  | VStr s => s
  | VOther text => text
  end.

(** [data] of the answer of [/text/best]. *)
Record TextResult := mkTextResult {
  output : string;
  selectedModel : string;
  alternatives : option (list string);
  text_processingTime : Z
}.

Definition default_output : string :=
  "I analyzed your input and will provide concise guidance.".

(** The text the endpoint works on: the form field, or the body's ["text"]
    when the form field is missing or empty and there is a body. *)
Definition incoming_text (text : option string) (payload : option (gmap string PyValue))
    : option string :=
  if negb (truthy text) then
    match payload with
    | Some p => Some (py_str (default (VStr "") (p !! "text")))
    | None => text
    end
  else text.

(** [(incoming_text or "").strip()], replaced by the default when empty. *)
Definition cleaned_text (incoming : option string) : string :=
  let cleaned := strip (if truthy incoming then default "" incoming else "") in
  if negb (nonempty_str cleaned) then default_output else cleaned.

Definition text_best (environ : gmap string string) (start finish : float)
    (text : option string) (payload : option (gmap string PyValue)) : option TextResult :=
  let output := cleaned_text (incoming_text text payload) in
  processing_time ← py_round ((finish - start) * 1000)%float;
  Some (mkTextResult output
          (default "agriclip-simple-summarizer" (environ !! "TEXT_MODEL_ID"))
          None processing_time).

(** *** The process: the model globals and the endpoints that use them *)

Section Process.

(** The two networks ([torch.nn.Module]) and the preprocessing transform. *)
Variables Detector Classifier Transform : Type.
Variables Upload Image : Type.

(** The module globals [_detector] (with its attribute [labels]),
    [_effnet], [_effnet_transform] and [_effnet_labels]; [None] until
    loaded. *)
Record Globals := mkGlobals {
  g_detector : option (Detector * list string);
  g_effnet : option Classifier;
  g_effnet_transform : option Transform;
  g_effnet_labels : option (list string)
}.

(** What the constructors of torchvision answer when they are called: each
    may raise; the category lists come from [meta.get("categories", [])]. *)
Record Loaders := mkLoaders {
  detector_coco : option Detector;
  coco_categories : list string;
  detector_plain : option Detector;
  effnet_imagenet : option Classifier;
  imagenet_transforms : option Transform;
  imagenet_categories : list string;
  effnet_plain : option Classifier;
  plain_transform : Transform
}.

(** A computation on the globals that returns or raises; the globals
    survive an exception. *)
Definition Proc (A : Type) : Type := Globals → Globals * option A.

Definition ret {A : Type} (a : A) : Proc A := λ g, (g, Some a).

Definition lift {A : Type} (o : option A) : Proc A := λ g, (g, o).

Definition bind {A B : Type} (m : Proc A) (k : A → Proc B) : Proc B :=
  λ g, match m g with
       | (g', Some a) => k a g'
       | (g', None) => (g', None)
       end.

(** The [except] branch for the classifier, after the [try] left [g]. *)
Definition load_effnet_plain (ld : Loaders) : Proc unit :=
  λ g, match effnet_plain ld with
       | Some c =>
           (mkGlobals (g_detector g) (Some c) (Some (plain_transform ld)) (Some []),
            Some ())
       | None => (g, None)
       end.

(** [if _effnet is None: ...] *)
Definition load_effnet (ld : Loaders) : Proc unit :=
  λ g, match g_effnet g with
       | Some _ => (g, Some ())
       | None =>
           match effnet_imagenet ld with
           | Some c =>
               let g1 := mkGlobals (g_detector g) (Some c) (g_effnet_transform g)
                           (g_effnet_labels g) in
               match imagenet_transforms ld with
               | Some t =>
                   (mkGlobals (g_detector g) (Some c) (Some t)
                      (Some (imagenet_categories ld)), Some ())
               | None => load_effnet_plain ld g1
               end
           | None => load_effnet_plain ld g
           end
       end.

(** [if _detector is None: ...] *)
Definition load_detector (ld : Loaders) : Proc unit :=
  λ g, match g_detector g with
       | Some _ => (g, Some ())
       | None =>
           match detector_coco ld with
           | Some d =>
               (mkGlobals (Some (d, coco_categories ld)) (g_effnet g)
                  (g_effnet_transform g) (g_effnet_labels g), Some ())
           | None =>
               match detector_plain ld with
               | Some d =>
                   (mkGlobals (Some (d, [])) (g_effnet g) (g_effnet_transform g)
                      (g_effnet_labels g), Some ())
               | None => (g, None)
               end
           end
       end.

Definition load_models (ld : Loaders) : Proc unit :=
  bind (load_detector ld) (λ _, load_effnet ld).

(** The forward passes: the detector on an image, and transform, network,
    softmax, [max] and [topk] on a region. *)
Variable run_detector : Detector → Image → option DetectorOutput.
Variable run_classifier : Classifier → Transform → Image → option Scores.

(** [detect_objects]; calling a [_detector] that is [None] raises. *)
Definition detect_objects_g (ld : Loaders) (image : Image) : Proc (list Detection) :=
  bind (load_models ld) (λ _ g,
    match g_detector g with
    | Some (detector, names) =>
        (g, outputs ← run_detector detector image; detections_of names outputs)
    | None => (g, None)
    end).

(** [classify_crop] *)
Definition classify_crop_g (ld : Loaders) (image : Image) : Proc ClsResult :=
  bind (load_models ld) (λ _ g,
    match g_effnet_transform g, g_effnet g with
    | Some transform, Some effnet =>
        (g, s ← run_classifier effnet transform image; result_of (g_effnet_labels g) s)
    | _, _ => (g, None)
    end).

Variable pil_image_from_upload : Upload → option Image.
Variable size : Image → Z * Z.
Variable crop : Image → Box → option Image.
Variables start finish : float.

(** The classification loop of [classify], on the globals. *)
Fixpoint classify_loop_g (ld : Loaders) (boxes_for_regions : list Box) (i : nat)
    (regions : list Image) (classified_regions : list Entry) (best : nat * float)
    : Proc (list Entry * (nat * float)) :=
  match regions with
  | [] => ret (classified_regions, best)
  | region :: rest =>
      bind (classify_crop_g ld region) (λ cls,
      bind (lift (boxes_for_regions !! i)) (λ box,
        let entry := mkEntry (cls_label cls) (cls_confidence cls) (cls_top3 cls) box in
        classify_loop_g ld boxes_for_regions (S i) rest (classified_regions ++ [entry])
          (pick_best i (cls_confidence cls) best)))
  end.

(** [classify] on the globals: the body of the [try]. *)
Definition classify_g (ld : Loaders) (file : Upload) (imageDomain : option string)
    : Proc AnalysisResult :=
  bind (lift (pil_image_from_upload file)) (λ pil_img,
  let '(width, height) := size pil_img in
  bind (detect_objects_g ld pil_img) (λ detections,
  bind (lift (extract_regions Image crop pil_img width height detections))
    (λ '(regions, boxes_for_regions),
  bind (classify_loop_g ld boxes_for_regions 0 regions [] (0%nat, (-1.0)%float))
    (λ '(classified_regions, (best_idx, best_conf)),
  bind (lift (classified_regions !! best_idx)) (λ primary,
    let primary_label := entry_label primary in
    let domain := resolve_domain imageDomain detections primary_label in
    lift (assemble start finish
            (mkLocals width height detections boxes_for_regions classified_regions
               best_idx best_conf primary_label domain))))))).

(** [health]: load the models, then answer the two model names. *)
Definition health (ld : Loaders) : Proc (string * string) :=
  bind (load_models ld)
    (λ _, ret ("fasterrcnn_resnet50_fpn_coco", "efficientnet_b3_imagenet")).

(** The detector and the classifier as functions of the image alone, for
    globals that hold [detector] with [names] and [effnet] with [transform]
    and [labels]. *)
Definition warm_detect (detector : Detector) (names : list string) (image : Image)
    : option (list Detection) :=
  outputs ← run_detector detector image; detections_of names outputs.

Definition warm_classify (effnet : Classifier) (transform : Transform)
    (labels : option (list string)) (image : Image) : option ClsResult :=
  s ← run_classifier effnet transform image; result_of labels s.

End Process.

(** Both networks and the transform are loaded. *)
Definition loaded {Detector Classifier Transform : Type}
    (g : Globals Detector Classifier Transform) : Prop :=
  is_Some (g_detector _ _ _ g) ∧ is_Some (g_effnet _ _ _ g) ∧
  is_Some (g_effnet_transform _ _ _ g) ∧ is_Some (g_effnet_labels _ _ _ g).

(** Whoever holds the classifier holds its transform and labels. *)
Definition coherent {Detector Classifier Transform : Type}
    (g : Globals Detector Classifier Transform) : Prop :=
  is_Some (g_effnet _ _ _ g) →
  is_Some (g_effnet_transform _ _ _ g) ∧ is_Some (g_effnet_labels _ _ _ g).

(** The globals of a fresh process. *)
Definition cold {Detector Classifier Transform : Type}
    : Globals Detector Classifier Transform :=
  mkGlobals _ _ _ None None None None.

(** *** Vocabulary of the further statements *)

(** A character of a decimal integer: a digit or the minus sign. *)
Definition index_char (c : ascii) : bool :=
  let n := nat_of_ascii c in
  ((n =? 45)%nat || ((48 <=? n)%nat && (n <=? 57)%nat))%bool.

(** The token starts with a character no decimal integer has. *)
Definition starts_with_letter (tok : string) : bool :=
  match tok with
  | EmptyString => false
  | String c _ => negb (index_char c)
  end.

(** Every character of the string is one of a decimal integer. *)
Definition plain (s : string) : Prop :=
  ∀ c, c ∈ list_ascii_of_string s → index_char c = true.

(** A 100 x 100 photograph on which the classifier answers NaN. *)
Definition nan_photo : Stub.image :=
  Stub.mkImage (100, 100) [] (λ _, mkClsResult "daisy" nan []).

(** A confidence that does not beat the initial [best_conf = -1.0]. *)
Definition never_best (c : float) : Prop := ((-1.0) <? c)%float = false.

(** Stand-ins for the networks: a detector that finds one sheep, a
    classifier that answers class 0, and constructors that all succeed. *)
Module StubNet.

Definition run_detector (_ : unit) (_ : Stub.image) : option DetectorOutput :=
  Some (mkDetectorOutput (Some [(10, 10, 50, 50)%float]) (Some [1]) (Some [0.95%float])).

Definition run_classifier (_ _ : unit) (_ : Stub.image) : option Scores :=
  Some (mkScores 0.88 0 [(0.88%float, 0); (0.07%float, 1); (0.01%float, 5)]).

Definition loaders : Loaders unit unit unit :=
  mkLoaders unit unit unit (Some ()) ["background"; "sheep"] (Some ())
    (Some ()) (Some ()) ["sheep"; "goat"] (Some ()) ().

(** [classify] on the globals, with these stand-ins. *)
Definition run_g (file : Stub.image) (imageDomain : option string)
    : Proc unit unit unit AnalysisResult :=
  classify_g unit unit unit Stub.image Stub.image run_detector run_classifier
    Stub.decode Stub.img_size Stub.crop 0%float 0.25%float loaders file imageDomain.

(** The globals once both models are loaded from these constructors. *)
Definition warm : Globals unit unit unit :=
  mkGlobals unit unit unit (Some ((), ["background"; "sheep"])) (Some ()) (Some ())
    (Some ["sheep"; "goat"]).

End StubNet.

(** The same detection with its label in lower case. *)
Definition lower_label (d : Detection) : Detection :=
  mkDetection (lower (det_label d)) (det_confidence d) (det_box d).

(** The state of the right shift of [m0] by [k] places in the rounding
    of [SpecFloat]: the mantissa is the quotient, and when the shift is exact
    neither the round bit nor the sticky bit is set. *)
Definition shr_inv (m0 k : Z) (mrs : shr_record) : Prop :=
  shr_m mrs = m0 / 2 ^ k ∧
  (m0 mod 2 ^ k = 0 → shr_r mrs = false ∧ shr_s mrs = false).

(** [m * 2^e ≤ 100], on integers. *)
Definition at_most_100 (m e : Z) : Prop := e ≤ 0 ∧ m ≤ 100 * 2 ^ (- e).

(** ** The Python operations on values *)

Example lower_folds_case : lower "Early Blight (A-Z)" = "early blight (a-z)".
Proof. reflexivity. Qed.

Example contains_is_substring :
  contains "early blight" "blight" = true ∧ contains "early blight" "bright" = false.
Proof. by vm_compute. Qed.

Example py_int_truncates :
  py_int 3.99 = Some 3 ∧ py_int (-3.99) = Some (-3) ∧ py_int (-0.5) = Some 0 ∧
  py_int infinity = None ∧ py_int nan = None.
Proof. by vm_compute. Qed.

Example py_round_ties_to_even :
  py_round 0.5 = Some 0 ∧ py_round 1.5 = Some 2 ∧ py_round 2.5 = Some 2 ∧
  py_round (-2.5) = Some (-2) ∧ py_round 2.5001 = Some 3 ∧ py_round nan = None.
Proof. by vm_compute. Qed.

Example round_div_values :
  round_div 20000 10000 = Some 2 ∧ round_div 1 2 = Some 0 ∧ round_div 3 2 = Some 2 ∧
  round_div 149 100 = Some 1 ∧ round_div 1 0 = None.
Proof. by vm_compute. Qed.

(** [0.575 * 100] is [57.49999999999999] in binary64. *)
Example percent_values :
  percent 0.72 = Some 72 ∧ percent 0.88 = Some 88 ∧ percent 1 = Some 100 ∧
  percent 0.575 = Some 57.
Proof. by vm_compute. Qed.

(** The end-to-end scenario of a detected sheep on 200 x 200. *)
Example sheep_scenario :
  ∃ r, Stub.run Stub.sheep_photo None = Some r ∧
    diseaseDetected (classification r) = false ∧
    diseaseName (classification r) = "sheep" ∧
    severity (classification r) = None ∧
    affectedArea (classification r) = None ∧
    confidence (classification r) = 88 ∧
    report r = "This looks like sheep. Confidence 88%. The animal appears healthy.".
Proof. eexists. split_and!; [by vm_compute | done..]. Qed.

(** ** Strings *)

Lemma starts_with_spec (p s : string) :
  starts_with p s = true ↔ ∃ post, s = p +:+ post.
Proof.
  revert s. induction p as [|a p IH]; intros s; simpl.
  - split; [intros _; by exists s | done].
  - destruct s as [|b s]; simpl.
    + split; [done | intros [post H]; discriminate H].
    + rewrite andb_true_iff, bool_decide_eq_true, IH. split.
      * intros [-> [post ->]]. by exists post.
      * intros [post H]. injection H as -> ->. split; [done | by exists post].
Qed.

Lemma contains_spec (s tok : string) :
  contains s tok = true ↔ substring_of tok s.
Proof.
  unfold substring_of. induction s as [|c s IH].
  - simpl. rewrite orb_false_r, starts_with_spec. split.
    + intros [post H]. by exists "", post.
    + intros [pre [post H]]. destruct pre; [by exists post | discriminate H].
  - cbn [contains]. rewrite orb_true_iff, starts_with_spec, IH. split.
    + intros [[post H] | [pre [post H]]].
      * by exists "", post.
      * exists (String c pre), post. simpl. by rewrite H.
    + intros [pre [post H]]. destruct pre as [|c' pre]; simpl in H.
      * left. by exists post.
      * right. injection H as -> ->. by exists pre, post.
Qed.

Lemma any_in_spec (toks : list string) (s : string) :
  any_in toks s = true ↔ ∃ tok, tok ∈ toks ∧ substring_of tok s.
Proof.
  unfold any_in. rewrite existsb_exists. split.
  - intros [tok [Hin H]]. exists tok. by rewrite list_elem_of_In, <- contains_spec.
  - intros [tok [Hin H]]. exists tok. by rewrite <- list_elem_of_In, contains_spec.
Qed.

Lemma any_in_mentions (toks : list string) (label : string) :
  any_in toks (lower label) = true ↔ mentions toks label.
Proof. apply any_in_spec. Qed.

(** ** The order of the floats *)

Section FloatOrderFacts.

Lemma SFcompare_key (x y : spec_float) :
  SFcompare x y =
    match sf_key x, sf_key y with
    | Some a, Some b => Some (lex_compare a b)
    | _, _ => None
    end.
Proof.
  destruct x as [sx|sx| |sx mx ex], y as [sy|sy| |sy my ey];
    try destruct sx; try destruct sy; try reflexivity.
  (* two negative finite floats: the larger exponent is the smaller float *)
  cbn. rewrite Z.compare_opp, (Z.compare_antisym ex ey). by destruct (ex ?= ey).
Qed.

Lemma lex_compare_refl (a : key) : lex_compare a a = Eq.
Proof. destruct a as [[a1 a2] a3]. cbn. by rewrite !Z.compare_refl. Qed.

Lemma lex_compare_antisym (a b : key) : lex_compare b a = CompOpp (lex_compare a b).
Proof.
  destruct a as [[a1 a2] a3], b as [[b1 b2] b3]. cbn.
  rewrite (Z.compare_antisym a1 b1), (Z.compare_antisym a2 b2), (Z.compare_antisym a3 b3).
  destruct (a1 ?= b1), (a2 ?= b2), (a3 ?= b3); reflexivity.
Qed.

(** The lexicographic order as a proposition, for [lia]. *)
Lemma lex_compare_Lt (a b : key) :
  lex_compare a b = Lt ↔
  a.1.1 < b.1.1 ∨ (a.1.1 = b.1.1 ∧ (a.1.2 < b.1.2 ∨ (a.1.2 = b.1.2 ∧ a.2 < b.2))).
Proof.
  destruct a as [[a1 a2] a3], b as [[b1 b2] b3]. cbn.
  destruct (Z.compare_spec a1 b1), (Z.compare_spec a2 b2), (Z.compare_spec a3 b3);
    split; (done || lia).
Qed.

Lemma lex_compare_Gt (a b : key) : lex_compare a b = Gt ↔ lex_compare b a = Lt.
Proof. rewrite (lex_compare_antisym a b). by destruct (lex_compare a b). Qed.

(** Float comparisons through keys. *)
Lemma ltb_key (x y : float) :
  (x <? y)%float = true ↔
  ∃ a b, fkey x = Some a ∧ fkey y = Some b ∧ lex_compare a b = Lt.
Proof.
  rewrite ltb_spec. unfold SFltb, fkey. rewrite SFcompare_key.
  destruct (sf_key (Prim2SF x)) as [a|], (sf_key (Prim2SF y)) as [b|].
  - split.
    + intros H. exists a, b. by destruct (lex_compare a b).
    + intros (a' & b' & [= <-] & [= <-] & ->). done.
  - split; [done | by intros (? & ? & _ & ? & _)].
  - split; [done | by intros (? & ? & ? & _)].
  - split; [done | by intros (? & ? & ? & _)].
Qed.

Lemma leb_key (x y : float) :
  (x <=? y)%float = true ↔
  ∃ a b, fkey x = Some a ∧ fkey y = Some b ∧ lex_compare b a ≠ Lt.
Proof.
  rewrite leb_spec. unfold SFleb, fkey. rewrite SFcompare_key.
  destruct (sf_key (Prim2SF x)) as [a|], (sf_key (Prim2SF y)) as [b|].
  - split.
    + intros H. exists a, b. rewrite (lex_compare_antisym a b).
      by destruct (lex_compare a b).
    + intros (a' & b' & [= <-] & [= <-] & H).
      rewrite (lex_compare_antisym a b) in H. by destruct (lex_compare a b).
  - split; [done | by intros (? & ? & _ & ? & _)].
  - split; [done | by intros (? & ? & ? & _)].
  - split; [done | by intros (? & ? & ? & _)].
Qed.

(** A float is comparable (not NaN) when it is below or above something. *)
Lemma leb_refl_l (x y : float) : (x <=? y)%float = true → (x <=? x)%float = true.
Proof.
  rewrite !leb_key. intros (a & b & Ha & _ & _). exists a, a.
  by rewrite lex_compare_refl.
Qed.

Lemma leb_refl_r (x y : float) : (x <=? y)%float = true → (y <=? y)%float = true.
Proof.
  rewrite !leb_key. intros (a & b & _ & Hb & _). exists b, b.
  by rewrite lex_compare_refl.
Qed.

Lemma ltb_leb (x y : float) : (x <? y)%float = true → (x <=? y)%float = true.
Proof.
  rewrite ltb_key, leb_key. intros (a & b & Ha & Hb & H). exists a, b.
  split_and!; [done..|]. rewrite lex_compare_antisym, H. done.
Qed.

Lemma ltb_not_leb (x y : float) : (x <? y)%float = true → (y <=? x)%float = false.
Proof.
  rewrite ltb_key. intros (a & b & Ha & Hb & H).
  apply not_true_is_false. rewrite leb_key. intros (b' & a' & Hb' & Ha' & H').
  congruence.
Qed.

(** Totality on comparable floats. *)
Lemma not_ltb_leb (x y : float) :
  (x <? y)%float = false → (x <=? x)%float = true → (y <=? y)%float = true →
  (y <=? x)%float = true.
Proof.
  intros H Hx Hy. apply leb_key in Hx as (a & _ & Ha & _ & _).
  apply leb_key in Hy as (b & _ & Hb & _ & _).
  apply leb_key. exists b, a. split_and!; [done..|].
  intros Hlt. assert ((x <? y)%float = true) as H'; [|congruence].
  apply ltb_key. by exists a, b.
Qed.

Lemma not_leb_ltb (x y : float) :
  (x <=? y)%float = false → (x <=? x)%float = true → (y <=? y)%float = true →
  (y <? x)%float = true.
Proof.
  intros H Hx Hy. apply leb_key in Hx as (a & _ & Ha & _ & _).
  apply leb_key in Hy as (b & _ & Hb & _ & _).
  apply ltb_key. exists b, a. split_and!; [done..|].
  destruct (lex_compare b a) eqn:E; [| done |].
  - exfalso. apply not_true_iff_false in H. apply H, leb_key. exists a, b.
    split_and!; [done..|]. by rewrite E.
  - exfalso. apply not_true_iff_false in H. apply H, leb_key. exists a, b.
    split_and!; [done..|]. by rewrite E.
Qed.

Lemma leb_ltb_trans (x y z : float) :
  (x <=? y)%float = true → (y <? z)%float = true → (x <? z)%float = true.
Proof.
  rewrite leb_key, !ltb_key.
  intros (a & b & Ha & Hb & H1) (b' & c & Hb' & Hc & H2).
  assert (b' = b) as -> by congruence. exists a, c. split_and!; [done..|].
  destruct (lex_compare b a) eqn:E; [| done |].
  - apply lex_compare_Lt in H2. apply lex_compare_Lt.
    assert (lex_compare a b = Eq) as E' by (by rewrite lex_compare_antisym, E).
    destruct a as [[a1 a2] a3], b as [[b1 b2] b3]. cbn in E, E' |- *.
    destruct (Z.compare_spec a1 b1), (Z.compare_spec a2 b2), (Z.compare_spec a3 b3);
      try done; cbn in H2 |- *; lia.
  - apply lex_compare_Gt, lex_compare_Lt in E.
    apply lex_compare_Lt in H2. apply lex_compare_Lt. lia.
Qed.

Lemma ltb_leb_trans (x y z : float) :
  (x <? y)%float = true → (y <=? z)%float = true → (x <? z)%float = true.
Proof.
  rewrite leb_key, !ltb_key.
  intros (a & b & Ha & Hb & H1) (b' & c & Hb' & Hc & H2).
  assert (b' = b) as -> by congruence. exists a, c. split_and!; [done..|].
  destruct (lex_compare c b) eqn:E; [| done |].
  - apply lex_compare_Lt in H1. apply lex_compare_Lt.
    assert (lex_compare b c = Eq) as E' by (by rewrite lex_compare_antisym, E).
    destruct c as [[c1 c2] c3], b as [[b1 b2] b3]. cbn in E, E' |- *.
    destruct (Z.compare_spec c1 b1), (Z.compare_spec c2 b2), (Z.compare_spec c3 b3);
      try done; cbn in H1 |- *; lia.
  - apply lex_compare_Gt, lex_compare_Lt in E.
    apply lex_compare_Lt in H1. apply lex_compare_Lt. lia.
Qed.

End FloatOrderFacts.

(** ** The pipeline, step by step *)

Section ServiceFacts.

Context {Upload Image : Type}.
Context (pil_image_from_upload : Upload → option Image).
Context (size : Image → Z * Z).
Context (crop : Image → Box → option Image).
Context (detect_objects : Image → option (list Detection)).
Context (classify_crop : Image → option ClsResult).
Context (start finish : float).

Local Abbreviation extract_loop' := (extract_loop Image crop).
Local Abbreviation extract_regions' := (extract_regions Image crop).
Local Abbreviation classify_loop' := (classify_loop Image classify_crop).
Local Abbreviation resolve' :=
  (resolve Upload Image pil_image_from_upload size crop detect_objects classify_crop).
Local Abbreviation assemble' := (assemble start finish).
Local Abbreviation classify' :=
  (classify Upload Image pil_image_from_upload size crop detect_objects classify_crop
     start finish).

(** The extraction loop appends, per detection and in order, the crop and
    the clamped box. *)
Lemma extract_loop_spec pil_img width height dets regions boxes regions' boxes' :
  extract_loop' pil_img width height dets regions boxes = Some (regions', boxes') →
  ∃ new_regions new_boxes,
    regions' = regions ++ new_regions ∧ boxes' = boxes ++ new_boxes ∧
    length new_regions = length dets ∧
    Forall2 (λ det b, clamp_box width height (det_box det) = Some b) dets new_boxes.
Proof.
  revert regions boxes. induction dets as [|det dets IH]; intros regions boxes H.
  - injection H as <- <-. exists [], []. by rewrite !app_nil_r.
  - cbn [extract_loop] in H.
    destruct (clamp_box width height (det_box det)) as [b|] eqn:Hb; [|done].
    cbn in H. destruct (crop pil_img b) as [c|] eqn:Hc; [|done]. cbn in H.
    apply IH in H as (nr & nb & -> & -> & Hlen & Hall).
    exists (c :: nr), (b :: nb). rewrite <- !app_assoc. cbn.
    split_and!; [done | done | by rewrite Hlen | by constructor].
Qed.

(** The classification loop appends one entry per region, carrying the
    classifier's answer and the box of the same index, and threads the
    best-region selection over the confidences. *)
Lemma classify_loop_spec boxes i regions classified best classified' best' :
  classify_loop' boxes i regions classified best = Some (classified', best') →
  ∃ news,
    classified' = classified ++ news ∧
    best' = select_from i (entry_confidence <$> news) best ∧
    length news = length regions ∧
    ∀ (j : nat) e, news !! j = Some e →
      boxes !! (i + j)%nat = Some (entry_box e) ∧
      ∃ region cls, regions !! j = Some region ∧ classify_crop region = Some cls ∧
        entry_label e = cls_label cls ∧ entry_confidence e = cls_confidence cls ∧
        entry_top3 e = cls_top3 cls.
Proof.
  revert i classified best.
  induction regions as [|region regions IH]; intros i classified best H.
  - injection H as <- <-. exists []. rewrite app_nil_r. split_and!; [done..|].
    intros j e Hj. done.
  - cbn [classify_loop] in H.
    destruct (classify_crop region) as [cls|] eqn:Hcls; [|done]. cbn in H.
    destruct (boxes !! i) as [box|] eqn:Hbox; [|done]. cbn in H.
    apply IH in H as (news & -> & -> & Hlen & Hall).
    exists (mkEntry (cls_label cls) (cls_confidence cls) (cls_top3 cls) box :: news).
    rewrite <- app_assoc. cbn. split_and!; [done | done | by rewrite Hlen |].
    intros [|j] e Hj; cbn in Hj.
    + injection Hj as <-. cbn. rewrite Nat.add_0_r. split; [done|].
      by exists region, cls.
    + apply Hall in Hj as [Hb Hr]. split; [|done].
      by replace (i + S j)%nat with (S i + j)%nat by lia.
Qed.

(** What [resolve] has established when it returns. *)
Lemma resolve_inv file imageDomain l :
  resolve' file imageDomain = Some l →
  ∃ pil_img regions primary,
    pil_image_from_upload file = Some pil_img ∧
    size pil_img = (l_width l, l_height l) ∧
    detect_objects pil_img = Some (l_detections l) ∧
    extract_regions' pil_img (l_width l) (l_height l) (l_detections l)
      = Some (regions, l_boxes_for_regions l) ∧
    classify_loop' (l_boxes_for_regions l) 0 regions [] (0%nat, (-1.0)%float)
      = Some (l_classified_regions l, (l_best_idx l, l_best_conf l)) ∧
    l_classified_regions l !! l_best_idx l = Some primary ∧
    l_primary_label l = entry_label primary ∧
    l_domain l = resolve_domain imageDomain (l_detections l) (l_primary_label l).
Proof.
  unfold resolve. intros H.
  destruct (pil_image_from_upload file) as [pil_img|] eqn:Himg; [|done]. cbn in H.
  destruct (size pil_img) as [width height] eqn:Hsize.
  destruct (detect_objects pil_img) as [dets|] eqn:Hdet; [|done]. cbn in H.
  destruct (extract_regions' pil_img width height dets) as [[regions boxes]|] eqn:Hex;
    [|done]. cbn in H.
  destruct (classify_loop' boxes 0 regions [] (0%nat, (-1.0)%float))
    as [[classified [best_idx best_conf]]|] eqn:Hloop; [|done]. cbn in H.
  destruct (classified !! best_idx) as [primary|] eqn:Hprim; [|done]. cbn in H.
  injection H as <-. cbn. by exists pil_img, regions, primary.
Qed.

(** The fields of an assembled report. *)
Lemma assemble_inv l r :
  assemble' l = Some r →
  let c := classification r in
  affected_area_pct (l_domain l) (l_width l) (l_height l) (l_boxes_for_regions l)
    = Some (affectedArea c) ∧
  severity c = severity_of (l_domain l) (l_best_conf l) ∧
  diseaseDetected c = disease_detected (l_domain l) (l_primary_label l) ∧
  diseaseName c = disease_name (l_domain l) (l_primary_label l) ∧
  make_narrative (l_domain l) (l_primary_label l) (l_best_conf l) (l_detections l)
    = Some (report r) ∧
  recommendations c = recommendations_for (l_domain l) (diseaseDetected c) ∧
  percent (l_best_conf l) = Some (confidence c) ∧
  detections r = l_detections l ∧
  regions r = l_classified_regions l.
Proof.
  unfold assemble. intros H.
  destruct (affected_area_pct _ _ _ _) as [area|] eqn:Harea; [|done]. cbn in H.
  destruct (make_narrative _ _ _ _) as [narrative|] eqn:Hnar; [|done]. cbn in H.
  destruct (py_round _) as [pt|] eqn:Hpt; [|done]. cbn in H.
  destruct (percent _) as [pct|] eqn:Hpct; [|done]. cbn in H.
  unfold json_response in H. destruct (json_content _); [|done].
  injection H as <-. cbn. done.
Qed.

Lemma classify_inv file imageDomain r :
  classify' file imageDomain = Some r ↔
  ∃ l, resolve' file imageDomain = Some l ∧ assemble' l = Some r.
Proof.
  unfold classify. split.
  - intros H. destruct (resolve' file imageDomain) as [l|] eqn:Hl; [|done].
    by exists l.
  - intros (l & -> & H). done.
Qed.

End ServiceFacts.

(** ** Region extraction *)


Section Extraction.

Context {Image : Type} (crop : Image → Box → option Image).



(** Extraction succeeds when, for every detection, the clamp of its box is
    computed and the crop of that box succeeds; the regions are these
    crops. *)
Lemma extract_loop_total (P : Image → Prop) (pil_img : Image) (width height : Z)
    (dets : list Detection) (regions : list Image) (boxes : list Box) :
  Forall (λ det, ∃ b region, clamp_box width height (det_box det) = Some b ∧
                             crop pil_img b = Some region ∧ P region) dets →
  ∃ new_regions new_boxes,
    extract_loop Image crop pil_img width height dets regions boxes
      = Some (regions ++ new_regions, boxes ++ new_boxes) ∧
    length new_regions = length dets ∧ length new_boxes = length dets ∧
    Forall P new_regions.
Proof.
  intros Hall. revert regions boxes.
  induction Hall as [|det dets (b & region & Hb & Hc & HP) _ IH]; intros regions boxes.
  - exists [], []. by rewrite !app_nil_r.
  - cbn [extract_loop]. rewrite Hb. cbn. rewrite Hc. cbn.
    destruct (IH (regions ++ [region]) (boxes ++ [b])) as (nr & nb & -> & Hnr & Hnb & HPs).
    exists (region :: nr), (b :: nb). rewrite <- !app_assoc. cbn.
    split_and!; [done | by rewrite Hnr | by rewrite Hnb | by constructor].
Qed.

(** With no detection the loop is skipped and the image itself is the
    one region. *)
Lemma extract_regions_nil (pil_img : Image) (width height : Z) :
  extract_regions Image crop pil_img width height []
    = Some ([pil_img], [(0, 0, width, height)]).
Proof. reflexivity. Qed.

End Extraction.


(** A detection box to the right of an image of 100 x 100: the clamp gives
    [x1 = 500] and [x2 = 100], the crop refuses it and the request answers
    the error. *)
Lemma outside_detection_is_error :
  clamp_box 100 100 (500, 0, 600, 50)%float = Some (500, 0, 100, 50) ∧
  extract_regions Stub.image Stub.crop Stub.outside_photo 100 100
    (Stub.img_detections Stub.outside_photo) = None ∧
  Stub.run Stub.outside_photo None = None.
Proof. by vm_compute. Qed.


(** ** Best-region selection *)

Lemma valid_conf_above_init (c : float) : valid_conf c → ((-1.0) <? c)%float = true.
Proof.
  intros [H0 _]. apply (ltb_leb_trans _ 0%float); [reflexivity | done].
Qed.

Lemma valid_conf_refl (c : float) : valid_conf c → (c <=? c)%float = true.
Proof. intros [H0 _]. by apply leb_refl_r in H0. Qed.

(** One step of the loop keeps the invariant. *)
Lemma pick_best_step (seen : list float) (c : float) (best : nat * float) :
  Forall valid_conf seen → valid_conf c →
  best_so_far seen best →
  first_maximum (seen ++ [c]) (pick_best (length seen) c best).
Proof.
  intros Hseen Hc [[-> ->] | Hmax].
  - unfold pick_best. cbn [snd]. rewrite (valid_conf_above_init c Hc). cbn.
    split_and!; [done | |].
    + intros [|j] c' Hj; [|done]. injection Hj as <-. by apply valid_conf_refl.
    + intros j c' Hj. lia.
  - destruct best as [k b]. destruct Hmax as (Hk & Hle & Hlt).
    assert (valid_conf b) as Hb.
    { rewrite Forall_forall in Hseen. apply Hseen. by apply list_elem_of_lookup_2 in Hk. }
    unfold pick_best. cbn [snd]. destruct (b <? c)%float eqn:Hbc.
    + split_and!.
      * by rewrite lookup_app_r, Nat.sub_diag.
      * intros j c' Hj. apply lookup_app_Some in Hj as [Hj | [_ Hj]].
        -- apply ltb_leb, (leb_ltb_trans _ b); [by eapply Hle | done].
        -- apply list_lookup_singleton_Some in Hj as [_ <-]. by apply valid_conf_refl.
      * intros j c' Hjk Hj. rewrite lookup_app_l in Hj by done.
        apply (leb_ltb_trans _ b); [by eapply Hle | done].
    + split_and!.
      * apply lookup_app_l_Some. done.
      * intros j c' Hj. apply lookup_app_Some in Hj as [Hj | [_ Hj]].
        -- by eapply Hle.
        -- apply list_lookup_singleton_Some in Hj as [_ <-].
           apply not_ltb_leb; [done | by apply valid_conf_refl..].
      * intros j c' Hjk Hj. apply lookup_lt_Some in Hk.
        rewrite lookup_app_l in Hj by lia. by eapply Hlt.
Qed.

Lemma select_from_spec (rest seen : list float) (best : nat * float) :
  Forall valid_conf (seen ++ rest) →
  best_so_far seen best →
  best_so_far (seen ++ rest) (select_from (length seen) rest best).
Proof.
  revert seen best. induction rest as [|c rest IH]; intros seen best Hall Hinv.
  - by rewrite app_nil_r.
  - cbn [select_from]. apply Forall_app in Hall as Hall'. destruct Hall' as [Hseen Hrest].
    apply Forall_cons in Hrest as [Hc Hrest].
    replace (seen ++ c :: rest) with ((seen ++ [c]) ++ rest) in * by by rewrite <- app_assoc.
    replace (S (length seen)) with (length (seen ++ [c])) by (rewrite length_app; cbn; lia).
    apply IH; [done|]. right. by apply pick_best_step.
Qed.

(** The whole loop, from [best_idx = 0] and [best_conf = -1.0]. *)
Lemma select_best_spec (confs : list float) :
  confs ≠ [] → Forall valid_conf confs → first_maximum confs (select_best confs).
Proof.
  intros Hne Hall. unfold select_best.
  destruct (select_from_spec confs [] (0%nat, (-1.0)%float) Hall) as [[H _] | H];
    [by left | done | done].
Qed.

(** ** Domain estimation *)

Lemma nonempty_detected (tokens : gset string) (dets : list Detection) :
  nonempty (detection_labels dets ∩ tokens) = true ↔ detected_in tokens dets.
Proof.
  unfold nonempty, detected_in, detection_labels. rewrite bool_decide_eq_true. split.
  - intros H. apply set_choose_L in H as [x Hx].
    apply elem_of_intersection in Hx as [Hl Ht].
    apply elem_of_list_to_set, list_elem_of_fmap in Hl as (d & -> & Hd). by exists d.
  - intros (d & Hd & Ht) Hempty.
    assert (lower (det_label d) ∈ (∅ : gset string)) as Hin; [|set_solver].
    rewrite <- Hempty. apply elem_of_intersection. split; [|done].
    apply elem_of_list_to_set, list_elem_of_fmap. by exists d.
Qed.

Lemma not_nonempty_detected (tokens : gset string) (dets : list Detection) :
  nonempty (detection_labels dets ∩ tokens) = false ↔ ¬ detected_in tokens dets.
Proof. by rewrite <- nonempty_detected, not_true_iff_false. Qed.

Lemma not_any_in_mentions (toks : list string) (label : string) :
  any_in toks (lower label) = false ↔ ¬ mentions toks label.
Proof. by rewrite <- any_in_mentions, not_true_iff_false. Qed.

(** The decision table of [estimate_domain], first match wins. *)
Lemma estimate_domain_rules (dets : list Detection) (cls_label : string) :
  (detected_in animal_tokens dets ∧ estimate_domain dets cls_label = "livestock") ∨
  (¬ detected_in animal_tokens dets ∧ detected_in plant_tokens dets ∧
     estimate_domain dets cls_label = "plant") ∨
  (¬ detected_in animal_tokens dets ∧ ¬ detected_in plant_tokens dets ∧
     ((mentions fish_label_tokens cls_label ∧ estimate_domain dets cls_label = "fish") ∨
      (¬ mentions fish_label_tokens cls_label ∧ mentions plant_label_tokens cls_label ∧
         estimate_domain dets cls_label = "plant") ∨
      (¬ mentions fish_label_tokens cls_label ∧ ¬ mentions plant_label_tokens cls_label ∧
         mentions animal_label_tokens cls_label ∧
         estimate_domain dets cls_label = "livestock") ∨
      (¬ mentions fish_label_tokens cls_label ∧ ¬ mentions plant_label_tokens cls_label ∧
         ¬ mentions animal_label_tokens cls_label ∧
         estimate_domain dets cls_label = "plant"))).
Proof.
  unfold estimate_domain.
  destruct (nonempty (detection_labels dets ∩ animal_tokens)) eqn:Ha.
  { left. split; [by apply nonempty_detected | done]. }
  apply not_nonempty_detected in Ha.
  destruct (nonempty (detection_labels dets ∩ plant_tokens)) eqn:Hp.
  { right; left. split_and!; [done | by apply nonempty_detected | done]. }
  apply not_nonempty_detected in Hp. right; right. split_and!; [done..|].
  destruct (any_in fish_label_tokens (lower cls_label)) eqn:Hf.
  { left. split; [by apply any_in_mentions | done]. }
  apply not_any_in_mentions in Hf.
  destruct (any_in plant_label_tokens (lower cls_label)) eqn:Hl.
  { right; left. split_and!; [done | by apply any_in_mentions | done]. }
  apply not_any_in_mentions in Hl.
  destruct (any_in animal_label_tokens (lower cls_label)) eqn:Hv.
  { right; right; left. split_and!; [done | done | by apply any_in_mentions | done]. }
  apply not_any_in_mentions in Hv. by right; right; right.
Qed.

(** C7. Precedence and totality of the Domain Estimator. A detection label
    that is, case-insensitively, one of cow, sheep, horse, dog, cat, bird,
    zebra, giraffe, bear gives livestock whatever the classification label
    says (a detected cow with the label leaf is livestock); failing that, a
    detected plant or potted plant gives plant whatever the classification
    label says; the answer is always plant, livestock or fish; and it is plant
    when no rule matches. *)
Theorem estimate_domain_precedence (dets : list Detection) (cls_label : string) :
  animal_tokens
    = {[ "cow"; "sheep"; "horse"; "dog"; "cat"; "bird"; "zebra"; "giraffe"; "bear" ]} ∧
  (detected_in animal_tokens dets → estimate_domain dets cls_label = "livestock") ∧
  (¬ detected_in animal_tokens dets → detected_in plant_tokens dets →
     estimate_domain dets cls_label = "plant") ∧
  known_domain (estimate_domain dets cls_label) ∧
  (¬ detected_in animal_tokens dets → ¬ detected_in plant_tokens dets →
   ¬ mentions fish_label_tokens cls_label → ¬ mentions plant_label_tokens cls_label →
   ¬ mentions animal_label_tokens cls_label →
     estimate_domain dets cls_label = "plant") ∧
  mentions plant_label_tokens "leaf" ∧
  estimate_domain [mkDetection "cow" 0.9 (0, 0, 10, 10)%float] "leaf" = "livestock" ∧
  estimate_domain [mkDetection "Cow" 0.9 (0, 0, 10, 10)%float] "Tomato leaf" = "livestock".
Proof.
  pose proof (estimate_domain_rules dets cls_label) as H. unfold known_domain.
  split_and!; [done | | | | | | by vm_compute..].
  - intros Ha. destruct H as [[_ ?] | [[? _] | [? _]]]; done.
  - intros Ha Hp. destruct H as [[? _] | [(_ & _ & ?) | (_ & ? & _)]]; done.
  - destruct H as [[_ ->] | [(_ & _ & ->) | (_ & _ & H)]]; [by right; left | by left |].
    destruct H as [[_ ->] | [(_ & _ & ->) | [(_ & _ & _ & ->) | (_ & _ & _ & ->)]]];
      [by right; right | by left | by right; left | by left].
  - intros Ha Hp Hf Hl Hv.
    destruct H as [[? _] | [(_ & ? & _) | (_ & _ & H)]]; [done..|].
    destruct H as [[? _] | [(_ & ? & _) | [(_ & _ & ? & _) | (_ & _ & _ & ?)]]]; done.
  - apply any_in_mentions. by vm_compute.
Qed.

Lemma estimate_domain_precedence_witness :
  detected_in animal_tokens [mkDetection "Cow" 0.9 (0, 0, 10, 10)%float] ∧
  estimate_domain [mkDetection "Cow" 0.9 (0, 0, 10, 10)%float] "Tomato leaf" = "livestock".
Proof.
  assert (detected_in animal_tokens [mkDetection "Cow" 0.9 (0, 0, 10, 10)%float]) as H.
  { eexists. split; [by apply list_elem_of_singleton|]. by vm_compute. }
  split; [exact H|].
  exact (proj1 (proj2 (estimate_domain_precedence
                         [mkDetection "Cow" 0.9 (0, 0, 10, 10)%float] "Tomato leaf")) H).
Defined.

(** ** The blocks of the report *)

Lemma region_area_sum (boxes : list Box) : region_area boxes = sum_of_areas boxes.
Proof.
  unfold region_area.
  assert (∀ acc, fold_left
            (λ acc '(x1, y1, x2, y2), acc + Z.max 0 (x2 - x1) * Z.max 0 (y2 - y1))
            boxes acc = acc + sum_of_areas boxes) as H; [|by rewrite H].
  unfold sum_of_areas, box_area.
  induction boxes as [|[[[x1 y1] x2] y2] boxes IH]; intros acc; cbn [fold_left foldr].
  - lia.
  - rewrite IH. lia.
Qed.

Lemma affected_area_pct_plant (width height : Z) (boxes : list Box) :
  affected_area_pct "plant" width height boxes =
    if 0 <? width * height
    then Some <$> round_div (100 * sum_of_areas boxes) (width * height)
    else Some None.
Proof. unfold affected_area_pct. by rewrite region_area_sum. Qed.

Lemma affected_area_pct_other (domain : string) (width height : Z) (boxes : list Box) :
  domain ≠ "plant" → affected_area_pct domain width height boxes = Some None.
Proof. intros H. unfold affected_area_pct. by rewrite decide_False. Qed.

Lemma severity_of_other (domain : string) (best_conf : float) :
  domain ≠ "plant" → severity_of domain best_conf = None.
Proof. intros H. unfold severity_of. by rewrite decide_False. Qed.

Lemma severity_of_plant_some (best_conf : float) :
  is_Some (severity_of "plant" best_conf).
Proof.
  unfold severity_of. cbn.
  destruct (0.8 <=? best_conf)%float, (0.6 <=? best_conf)%float; by eexists.
Qed.

Lemma disease_detected_spec (domain primary_label : string) :
  disease_detected domain primary_label = true ↔
  domain = "plant" ∧ mentions disease_tokens primary_label.
Proof.
  unfold disease_detected. destruct (decide (domain = "plant")) as [->|Hd].
  - rewrite any_in_mentions. split; [by intros ? | by intros [_ ?]].
  - split; [done | by intros [? _]].
Qed.

(** The two plant templates of [make_narrative] and the token list that
    chooses between them. *)
Lemma make_narrative_plant (cls_label : string) (cls_conf : float)
    (dets : list Detection) (pct : Z) :
  percent cls_conf = Some pct →
  (mentions narrative_tokens cls_label →
     make_narrative "plant" cls_label cls_conf dets =
       Some ("This plant shows signs of " +:+ cls_label +:+ ". Confidence " +:+ pretty pct
               +:+ "%. Consider isolating the affected area and applying appropriate treatment.")) ∧
  (¬ mentions narrative_tokens cls_label →
     make_narrative "plant" cls_label cls_conf dets =
       Some ("This appears to be a healthy plant or foliage (" +:+ cls_label
               +:+ "). Confidence " +:+ pretty pct +:+ "%.")).
Proof.
  intros Hpct. unfold make_narrative. rewrite Hpct. cbn [mbind option_bind].
  rewrite decide_True by done. split.
  - intros H. apply any_in_mentions in H. by rewrite H.
  - intros H. apply not_any_in_mentions in H. by rewrite H.
Qed.

Lemma make_narrative_fallback (domain cls_label : string) (cls_conf : float)
    (dets : list Detection) (pct : Z) :
  percent cls_conf = Some pct → ¬ known_domain domain →
  make_narrative domain cls_label cls_conf dets =
    Some ("Detected subject classified as " +:+ cls_label +:+ " with " +:+ pretty pct
            +:+ "% confidence.").
Proof.
  intros Hpct Hd. unfold make_narrative. rewrite Hpct. cbn [mbind option_bind].
  unfold known_domain in Hd. by rewrite !decide_False by naive_solver.
Qed.

(** C2, at the input where it fails. The label Early Blight gets the
    disease sentence of the claim. The label Slime Mold contains the
    disease token mold, and the disease decision flags it in the plant
    domain; the narrative for the same domain and label is the healthy-plant
    sentence, because the token list of [make_narrative] has no mold. The
    run on a photograph classified as Slime Mold shows both in one report. *)
Theorem narrative_misses_mold :
  make_narrative "plant" "Early Blight" 0.72 [] =
    Some ("This plant shows signs of Early Blight. Confidence 72%. " +:+
          "Consider isolating the affected area and applying appropriate treatment.") ∧
  mentions disease_tokens "Slime Mold" ∧
  disease_detected "plant" "Slime Mold" = true ∧
  make_narrative "plant" "Slime Mold" 0.9 [] =
    Some "This appears to be a healthy plant or foliage (Slime Mold). Confidence 90%." ∧
  ∃ r, Stub.run Stub.mold_photo None = Some r ∧
       diseaseDetected (classification r) = true ∧
       report r = "This appears to be a healthy plant or foliage (Slime Mold). Confidence 90%.".
Proof.
  assert (disease_detected "plant" "Slime Mold" = true) as H by by vm_compute.
  split_and!;
    [by vm_compute | by apply disease_detected_spec in H as [_ ?] | done | by vm_compute |].
  eexists. split_and!; [by vm_compute | done..].
Qed.

(** What [assemble] puts in each field, rule by rule. *)

Section Assembly.

Context (start finish : float).
Local Abbreviation assemble := (assemble start finish).

Lemma assemble_presence (l : Locals) (r : AnalysisResult) :
  assemble l = Some r → presence_rule l (classification r).
Proof.
  intros H. apply assemble_inv in H as (Harea & Hsev & _). unfold presence_rule.
  destruct (decide (l_domain l = "plant")) as [Hd|Hd].
  - rewrite Hd in Harea, Hsev. rewrite Hsev.
    rewrite affected_area_pct_plant in Harea. split_and!.
    + split; [done | intros _; apply severity_of_plant_some].
    + destruct (Z.ltb_spec 0 (l_width l * l_height l)) as [Hpos|Hneg].
      * destruct (round_div _ _) as [pct|]; [|done]. injection Harea as <-.
        split; [done | by eexists].
      * injection Harea as <-. split; [by intros [? ?] | lia].
    + done.
  - rewrite severity_of_other in Hsev by done.
    rewrite affected_area_pct_other in Harea by done. injection Harea as <-.
    rewrite Hsev. split_and!.
    + split; [by intros [? ?] | done].
    + split; [by intros [? ?] | by intros [? _]].
    + done.
Qed.

Lemma assemble_disease (l : Locals) (r : AnalysisResult) :
  assemble l = Some r → disease_rule l (classification r).
Proof.
  intros H. apply assemble_inv in H as (_ & _ & Hdet & Hname & _).
  unfold disease_rule. rewrite Hdet, Hname. split_and!.
  - apply disease_detected_spec.
  - intros Hd. apply not_true_is_false. rewrite disease_detected_spec. by intros [? _].
  - unfold disease_name. intros [-> | Hd]; [done|].
    destruct (disease_detected _ _); [done|]. by rewrite decide_True.
  - unfold disease_name. intros Hd ->. by rewrite decide_False by by intros ?.
Qed.

Lemma assemble_area (l : Locals) (r : AnalysisResult) :
  assemble l = Some r → area_rule l (classification r).
Proof.
  intros H. apply assemble_inv in H as (Harea & _). unfold area_rule. intros Hd.
  rewrite Hd, affected_area_pct_plant in Harea. cbn zeta. split.
  - intros Hpos. apply Z.ltb_lt in Hpos. rewrite Hpos in Harea.
    destruct (round_div _ _) as [pct|]; [|done]. injection Harea as <-.
    split; [by eexists | done].
  - intros Hneg. apply Z.ltb_ge in Hneg. rewrite Hneg in Harea. by injection Harea as <-.
Qed.

Lemma assemble_severity (l : Locals) (r : AnalysisResult) :
  assemble l = Some r → severity_rule l (classification r).
Proof.
  intros H. apply assemble_inv in H as (_ & Hsev & _). unfold severity_rule. intros Hd.
  rewrite Hsev, Hd. unfold severity_of. rewrite decide_True by done. cbn zeta.
  split_and!.
  - by intros ->.
  - intros H6 H8. by rewrite (ltb_not_leb _ _ H8), H6.
  - intros H8 Hmid. rewrite H8. destruct (0.6 <=? l_best_conf l)%float eqn:H6; [|done].
    exfalso. apply Hmid. split; [done|].
    apply not_leb_ltb; [done | reflexivity | by apply leb_refl_r in H6].
Qed.

Lemma assemble_fallback (l : Locals) (r : AnalysisResult) :
  assemble l = Some r → ¬ known_domain (l_domain l) → fallback_report l r.
Proof.
  intros H Hd. unfold known_domain in Hd.
  assert (l_domain l ≠ "plant" ∧ l_domain l ≠ "livestock" ∧ l_domain l ≠ "fish")
    as (Hp & Hl & Hf) by (split_and!; intros E; apply Hd; auto).
  pose proof (assemble_presence l r H) as (_ & _ & Hnone).
  pose proof (assemble_disease l r H) as (_ & Hdet & Hname & _).
  apply assemble_inv in H as (_ & _ & _ & _ & Hnar & Hrec & Hpct & _).
  unfold fallback_report. cbn zeta. destruct (Hnone Hp) as [-> ->].
  rewrite (Hdet Hp), (Hname (or_intror Hp)). split_and!; [done.. | | done |].
  - rewrite Hrec. unfold recommendations_for. by rewrite !decide_False by done.
  - rewrite (make_narrative_fallback _ _ _ _ _ Hpct) in Hnar by done. by injection Hnar.
Qed.

End Assembly.

(** ** The report of a run *)

Section Report.

Context {Upload Image : Type}.
Context (pil_image_from_upload : Upload → option Image).
Context (size : Image → Z * Z).
Context (crop : Image → Box → option Image).
Context (detect_objects : Image → option (list Detection)).
Context (classify_crop : Image → option ClsResult).
Context (start finish : float).

Local Abbreviation resolve :=
  (resolve Upload Image pil_image_from_upload size crop detect_objects classify_crop).
Local Abbreviation classify :=
  (classify Upload Image pil_image_from_upload size crop detect_objects classify_crop
     start finish).

(** The best region of a run is the selection over the confidences of its
    classified regions, and the primary label is the label found there. *)
Lemma resolve_selects_best file imageDomain l :
  resolve file imageDomain = Some l →
  (l_best_idx l, l_best_conf l)
    = select_best (entry_confidence <$> l_classified_regions l) ∧
  ∃ e, l_classified_regions l !! l_best_idx l = Some e ∧ l_primary_label l = entry_label e.
Proof.
  intros H. apply resolve_inv in H as (img & regions & e & _ & _ & _ & _ & Hloop & He & Hl & _).
  apply classify_loop_spec in Hloop as (news & Hnews & Hbest & _). cbn in Hnews.
  rewrite Hnews, Hbest. split; [done|]. exists e. by rewrite <- Hnews.
Qed.

(** C8. Best-region selection picks the first maximum. The best region of
    a run is the selection over the confidences of its classified regions,
    in emission order; on every non-empty sequence of confidences (floats in
    [[0, 1]]) the selected index holds the selected confidence, no confidence
    is above it, and every confidence at an earlier index is strictly below
    it, so the index is the least one attaining the maximum. On
    [[0.3, 0.9, 0.9]] the selected index is 1. *)
Theorem best_region_first_maximum :
  (∀ file imageDomain l,
     resolve file imageDomain = Some l →
     (l_best_idx l, l_best_conf l)
       = select_best (entry_confidence <$> l_classified_regions l)) ∧
  (∀ confs : list float,
     confs ≠ [] → Forall valid_conf confs → first_maximum confs (select_best confs)) ∧
  (select_best [0.3; 0.9; 0.9]%float).1 = 1%nat.
Proof.
  split_and!; [| apply select_best_spec | reflexivity].
  intros file imageDomain l H. by apply resolve_selects_best in H as [? _].
Qed.

(** C3. In the assembled report [severity] and [affectedArea] are present
    if and only if the resolved domain is plant, and for every non-plant
    domain both are absent. The guard [total_area > 0] of line 230 holds on
    every picture the service works on: the picture comes from [Image.open],
    which gives none with an empty side. *)
Theorem severity_area_presence file imageDomain r :
  decodes_nonempty pil_image_from_upload size →
  classify file imageDomain = Some r →
  ∃ l, resolve file imageDomain = Some l ∧
    presence_iff_plant l (classification r) ∧
    (l_domain l ≠ "plant" →
       severity (classification r) = None ∧ affectedArea (classification r) = None).
Proof.
  intros Hopen H. apply classify_inv in H as (l & Hl & Hr). exists l.
  split; [done|].
  pose proof (assemble_presence _ _ _ _ Hr) as (Hsev & Harea & Hnone).
  apply resolve_inv in Hl as (img & _ & _ & Himg & Hsize & _).
  apply Hopen in Himg. rewrite Hsize in Himg. cbn in Himg.
  split; [|done]. split; [done|]. rewrite Harea. split; [by intros [? _]|].
  intros Hd. split; [done | lia].
Qed.

(** C4. [diseaseDetected] is true exactly when the domain is plant and the
    primary label, case-insensitively, contains one of blight, mildew, rust,
    fungus, spot, mold as a substring, so it is false for every other
    domain; [diseaseName] is the primary label when a disease is detected or
    the domain is not plant, and is Healthy when the domain is plant and no
    token matched. *)
Theorem disease_decision :
  disease_tokens = ["blight"; "mildew"; "rust"; "fungus"; "spot"; "mold"] ∧
  ∀ file imageDomain r,
    classify file imageDomain = Some r →
    ∃ l, resolve file imageDomain = Some l ∧ disease_rule l (classification r).
Proof.
  split; [done|]. intros file imageDomain r H.
  apply classify_inv in H as (l & Hl & Hr). exists l.
  split; [done | by eapply assemble_disease].
Qed.

(** C5. In the plant domain [affectedArea] is
    [round(100 * sum / (width * height))], the sum taken over all region
    boxes of [max(0, x2 - x1) * max(0, y2 - y1)], when [width * height > 0],
    and is absent otherwise. Every box is counted on its own: in a
    100 x 100 image two 10 x 10 regions give 2 whether they are apart or
    one on top of the other, and two regions covering the whole image give
    200, above 100. *)
Theorem affected_area_formula :
  (∀ file imageDomain r,
     classify file imageDomain = Some r →
     ∃ l, resolve file imageDomain = Some l ∧ area_rule l (classification r)) ∧
  affected_area_pct "plant" 100 100 [(0, 0, 10, 10); (50, 50, 60, 60)] = Some (Some 2) ∧
  affected_area_pct "plant" 100 100 [(0, 0, 10, 10); (0, 0, 10, 10)] = Some (Some 2) ∧
  affected_area_pct "plant" 100 100 [(0, 0, 100, 100); (0, 0, 100, 100)] = Some (Some 200).
Proof.
  split_and!; [|by vm_compute..]. intros file imageDomain r H.
  apply classify_inv in H as (l & Hl & Hr). exists l.
  split; [done | by eapply assemble_area].
Qed.

(** C6. In the plant domain [severity] is high whenever the best-region
    confidence is [>= 0.8], medium whenever it is [>= 0.6] and [< 0.8], and
    low otherwise; a confidence of exactly 0.8 grades high, exactly 0.6
    grades medium, and 0.599 grades low. *)
Theorem severity_thresholds :
  (∀ file imageDomain r,
     classify file imageDomain = Some r →
     ∃ l, resolve file imageDomain = Some l ∧ severity_rule l (classification r)) ∧
  severity_of "plant" 0.8 = Some "high" ∧
  severity_of "plant" 0.6 = Some "medium" ∧
  severity_of "plant" 0.599 = Some "low".
Proof.
  split_and!; [|by vm_compute..]. intros file imageDomain r H.
  apply classify_inv in H as (l & Hl & Hr). exists l.
  split; [done | by eapply assemble_severity].
Qed.

(** C9. For every decoded image on which the detector returns the empty
    list, the Region Extractor emits exactly one region, the image itself,
    with box [(0, 0, width, height)], and the [regions] of the final report
    is one entry with that box. *)
Theorem no_detection_whole_image file pil_img width height imageDomain :
  pil_image_from_upload file = Some pil_img →
  size pil_img = (width, height) →
  detect_objects pil_img = Some [] →
  extract_regions Image crop pil_img width height []
    = Some ([pil_img], [(0, 0, width, height)]) ∧
  ∀ r, classify file imageDomain = Some r →
    length (regions r) = 1%nat ∧
    ∃ e, regions r = [e] ∧ entry_box e = (0, 0, width, height).
Proof.
  intros Himg Hsize Hdet. split; [reflexivity|].
  intros r H. apply classify_inv in H as (l & Hl & Hr).
  apply resolve_inv in Hl as (img' & regs & _ & Himg' & Hsize' & Hdet' & Hex & Hloop & _).
  assert (img' = pil_img) as -> by congruence.
  assert (l_detections l = []) as Hnil by congruence.
  assert (l_width l = width ∧ l_height l = height) as [Hw Hh].
  { rewrite Hsize in Hsize'. by injection Hsize'. }
  rewrite Hnil, Hw, Hh in Hex. cbn in Hex. injection Hex as <- Hboxes.
  apply classify_loop_spec in Hloop as (news & Hnews & _ & Hlen & Hall). cbn in Hnews, Hlen.
  apply assemble_inv in Hr as (_ & _ & _ & _ & _ & _ & _ & _ & Hregs).
  rewrite Hregs, Hnews. destruct news as [|e [|e' news]]; [done | | done].
  split; [done|]. exists e. split; [done|].
  destruct (Hall 0%nat e eq_refl) as [Hbox _]. rewrite <- Hboxes in Hbox. cbn in Hbox.
  by injection Hbox.
Qed.

(** C10. The explicit domain override applies only when it is a non-empty
    string: an empty override, like a missing one, leaves the domain to the
    Domain Estimator, and a non-empty one is the domain verbatim. When that
    domain is none of plant, livestock, fish (Plant with a capital letter is
    none of them), the report has [severity] and [affectedArea] absent,
    [diseaseDetected] false, [diseaseName] equal to the primary label, no
    recommendations, and the narrative
    [Detected subject classified as {label} with {pct}% confidence.] *)
Theorem domain_override :
  (∀ dets label, resolve_domain (Some "") dets label = estimate_domain dets label) ∧
  (∀ dets label, resolve_domain None dets label = estimate_domain dets label) ∧
  (∀ (d : string) dets label, d ≠ "" → resolve_domain (Some d) dets label = d) ∧
  ¬ known_domain "Plant" ∧
  ∀ file (d : string) r,
    classify file (Some d) = Some r →
    ∃ l, resolve file (Some d) = Some l ∧
      (d = "" → l_domain l = estimate_domain (l_detections l) (l_primary_label l)) ∧
      (d ≠ "" → l_domain l = d) ∧
      (d ≠ "" → ¬ known_domain d → fallback_report l r).
Proof.
  assert (∀ (d : string) dets label, d ≠ "" → resolve_domain (Some d) dets label = d)
    as Hover.
  { intros d dets label Hd. unfold resolve_domain. by rewrite decide_False. }
  split_and!; [done | done | done | |].
  { unfold known_domain. by intros [? | [? | ?]]. }
  intros file d r H. apply classify_inv in H as (l & Hl & Hr).
  exists l. pose proof (resolve_inv _ _ _ _ _ _ _ _ Hl)
    as (_ & _ & _ & _ & _ & _ & _ & _ & _ & _ & Hdom).
  split_and!; [done | | |].
  - intros ->. by rewrite Hdom.
  - intros Hd. by rewrite Hdom, Hover.
  - intros Hd Hk. eapply assemble_fallback; [done|]. by rewrite Hdom, Hover.
Qed.

End Report.

(** ** Runs on the stand-in collaborators *)

(** The stand-in decoder gives no picture with an empty side. *)
Lemma stub_decodes_nonempty : decodes_nonempty Stub.decode Stub.img_size.
Proof.
  intros file img H. unfold Stub.decode in H.
  destruct (Z.ltb_spec 0 (Stub.img_size file).1); [|done].
  destruct (Z.ltb_spec 0 (Stub.img_size file).2); [|done].
  by injection H as <-.
Qed.

Lemma severity_area_presence_witness :
  decodes_nonempty Stub.decode Stub.img_size ∧
  ∃ r, Stub.run Stub.blight_photo None = Some r ∧
    ∃ l, Stub.locals Stub.blight_photo None = Some l ∧
      presence_iff_plant l (classification r) ∧
      (l_domain l ≠ "plant" →
         severity (classification r) = None ∧ affectedArea (classification r) = None).
Proof.
  split; [exact stub_decodes_nonempty|].
  eexists. split; [by vm_compute|].
  apply (severity_area_presence Stub.decode Stub.img_size Stub.crop Stub.detect
           Stub.classify_crop 0%float 0.25%float Stub.blight_photo None _
           stub_decodes_nonempty).
  by vm_compute.
Defined.

Lemma best_region_first_maximum_witness :
  [0.3; 0.9; 0.9]%float ≠ [] ∧ Forall valid_conf [0.3; 0.9; 0.9]%float ∧
  first_maximum [0.3; 0.9; 0.9]%float (select_best [0.3; 0.9; 0.9]%float).
Proof.
  assert (Forall valid_conf [0.3; 0.9; 0.9]%float) as Hall by repeat constructor.
  split_and!; [done | exact Hall |].
  exact (proj1 (proj2 (best_region_first_maximum Stub.decode Stub.img_size Stub.crop
                         Stub.detect Stub.classify_crop))
           [0.3; 0.9; 0.9]%float ltac:(done) Hall).
Defined.

Lemma disease_decision_witness :
  ∃ r, Stub.run Stub.blight_photo None = Some r ∧
    ∃ l, Stub.locals Stub.blight_photo None = Some l ∧ disease_rule l (classification r).
Proof.
  eexists. split; [by vm_compute|].
  apply (proj2 (disease_decision Stub.decode Stub.img_size Stub.crop Stub.detect
                  Stub.classify_crop 0%float 0.25%float) Stub.blight_photo None).
  by vm_compute.
Defined.

Lemma affected_area_formula_witness :
  ∃ r, Stub.run Stub.overlap_photo None = Some r ∧
    affectedArea (classification r) = Some 2 ∧
    ∃ l, Stub.locals Stub.overlap_photo None = Some l ∧ area_rule l (classification r).
Proof.
  eexists. split_and!; [by vm_compute | done |].
  apply (proj1 (affected_area_formula Stub.decode Stub.img_size Stub.crop Stub.detect
                  Stub.classify_crop 0%float 0.25%float) Stub.overlap_photo None).
  by vm_compute.
Defined.

Lemma severity_thresholds_witness :
  ∃ r, Stub.run Stub.blight_photo None = Some r ∧
    ∃ l, Stub.locals Stub.blight_photo None = Some l ∧ severity_rule l (classification r).
Proof.
  eexists. split; [by vm_compute|].
  apply (proj1 (severity_thresholds Stub.decode Stub.img_size Stub.crop Stub.detect
                  Stub.classify_crop 0%float 0.25%float) Stub.blight_photo None).
  by vm_compute.
Defined.

Lemma no_detection_whole_image_witness :
  Stub.decode Stub.blight_photo = Some Stub.blight_photo ∧
  Stub.img_size Stub.blight_photo = (100, 100) ∧
  Stub.detect Stub.blight_photo = Some [] ∧
  ∃ r, Stub.run Stub.blight_photo None = Some r ∧
    length (regions r) = 1%nat ∧
    ∃ e, regions r = [e] ∧ entry_box e = (0, 0, 100, 100).
Proof.
  split_and!; [done..|]. eexists. split; [by vm_compute|].
  apply (proj2 (no_detection_whole_image Stub.decode Stub.img_size Stub.crop Stub.detect
                  Stub.classify_crop 0%float 0.25%float Stub.blight_photo Stub.blight_photo
                  100 100 None eq_refl eq_refl eq_refl)).
  by vm_compute.
Defined.

Lemma domain_override_witness :
  "Plant" ≠ "" ∧ ¬ known_domain "Plant" ∧
  ∃ r, Stub.run Stub.blight_photo (Some "Plant") = Some r ∧
    report r = "Detected subject classified as Early Blight with 72% confidence." ∧
    ∃ l, Stub.locals Stub.blight_photo (Some "Plant") = Some l ∧
      l_domain l = "Plant" ∧ fallback_report l r.
Proof.
  pose proof (domain_override Stub.decode Stub.img_size Stub.crop Stub.detect
                Stub.classify_crop 0%float 0.25%float) as (_ & _ & _ & Hk & H).
  split_and!; [done | exact Hk |].
  eexists. split_and!; [by vm_compute | done |].
  destruct (H Stub.blight_photo "Plant" _ ltac:(by vm_compute)) as (l & Hl & _ & Hd & Hf).
  exists l. split_and!; [exact Hl | by apply Hd | by apply Hf].
Defined.


(** ** [text_best] *)

Lemma all_space_nil : all_space "".
Proof. intros c Hc. cbn in Hc. by apply elem_of_nil in Hc. Qed.

Lemma all_space_cons (c : ascii) (s : string) :
  is_space c = true → all_space s → all_space (String c s).
Proof.
  intros Hc Hs c' Hc'. cbn in Hc'. apply elem_of_cons in Hc' as [-> | Hc']; [done|].
  by apply Hs.
Qed.

(** [lstrip] removes a whitespace prefix and stops at the first other
    character. *)
Lemma lstrip_spec (s : string) :
  ∃ pre, s = pre +:+ lstrip s ∧ all_space pre ∧
         ∀ c s', lstrip s = String c s' → is_space c = false.
Proof.
  induction s as [|c s (pre & Hs & Hpre & Hfirst)].
  - exists "". split_and!; [done | apply all_space_nil | done].
  - cbn [lstrip]. destruct (is_space c) eqn:Hc.
    + exists (String c pre).
      split_and!; [by rewrite Hs at 1 | by apply all_space_cons | done].
    + exists "". split_and!; [done | apply all_space_nil |]. by intros c' s' [= <- _].
Qed.

(** [rstrip] removes a whitespace suffix and keeps everything before it. *)
Lemma rstrip_spec (s : string) :
  ∃ post, s = rstrip s +:+ post ∧ all_space post ∧
          ∀ c s', rstrip s = s' +:+ String c "" → is_space c = false.
Proof.
  induction s as [|c s (post & Hs & Hpost & Hlast)].
  - exists "". split_and!; [done | apply all_space_nil |].
    intros c s' H. cbn in H. by destruct s'.
  - cbn [rstrip]. destruct (rstrip s) as [|d t] eqn:Ht.
    + cbn in Hs. destruct (is_space c) eqn:Hc.
      * exists (String c post). split_and!; [cbn; by rewrite Hs at 1 | by apply all_space_cons |].
        intros c' s' H. by destruct s'.
      * exists post. split_and!; [cbn; by rewrite Hs at 1 | done |].
        intros c' s' H. destruct s' as [|? [|? ?]]; cbn in H; try discriminate H.
        by injection H as ->.
    + exists post. split_and!; [by rewrite Hs at 1 | done |].
      intros c' s' H. destruct s' as [|c'' s'']; cbn in H.
      * discriminate H.
      * injection H as <- H. by eapply Hlast.
Qed.

(** [rstrip] keeps a first character that is not whitespace. *)
Lemma rstrip_first (s : string) (c : ascii) (s' : string) :
  rstrip s = String c s' → ∃ t, s = String c t.
Proof.
  destruct s as [|d t]; [done|]. cbn [rstrip].
  destruct (rstrip t); [destruct (is_space d)|]; intros [= <- _]; by eexists.
Qed.

Lemma strip_trimmed (s : string) : trimmed (strip s).
Proof.
  unfold strip. split.
  - intros c s' H. apply rstrip_first in H as [t Ht].
    destruct (lstrip_spec s) as (_ & _ & _ & Hfirst). by eapply Hfirst.
  - destruct (rstrip_spec (lstrip s)) as (_ & _ & _ & Hlast). exact Hlast.
Qed.

(** The stripped string sits in the original between two runs of
    whitespace. *)
Lemma strip_affixes (s : string) :
  ∃ pre post, s = pre +:+ strip s +:+ post ∧ all_space pre ∧ all_space post.
Proof.
  destruct (lstrip_spec s) as (pre & Hs & Hpre & _).
  destruct (rstrip_spec (lstrip s)) as (post & Hl & Hpost & _).
  exists pre, post. unfold strip. by rewrite <- Hl.
Qed.

Lemma lstrip_fixed (s : string) :
  (∀ c s', s = String c s' → is_space c = false) → lstrip s = s.
Proof. destruct s as [|c s]; [done|]. intros H. cbn. by rewrite (H c s). Qed.

Lemma rstrip_fixed (s : string) :
  (∀ c s', s = s' +:+ String c "" → is_space c = false) → rstrip s = s.
Proof.
  induction s as [|c s IH]; [done|]. intros H. cbn [rstrip].
  destruct s as [|d t].
  - cbn. by rewrite (H c "").
  - rewrite IH; [done|]. intros c' s' Hs. apply (H c' (String c s')). cbn. by rewrite Hs.
Qed.

Lemma strip_fixed (s : string) : trimmed s → strip s = s.
Proof. intros [Hf Hl]. unfold strip. by rewrite lstrip_fixed, rstrip_fixed. Qed.

Lemma default_output_trimmed : trimmed default_output ∧ default_output ≠ "".
Proof.
  split; [|done]. apply (strip_trimmed default_output).
Qed.

(** What [cleaned_text] returns: never the empty string, never whitespace at
    either end. *)
Lemma cleaned_text_clean (incoming : option string) :
  cleaned_text incoming ≠ "" ∧ trimmed (cleaned_text incoming).
Proof.
  unfold cleaned_text. destruct (strip _) as [|c t] eqn:Hs; cbn.
  - split; [done | apply default_output_trimmed].
  - split; [done|]. rewrite <- Hs. apply strip_trimmed.
Qed.

Lemma cleaned_text_fixed (s : string) :
  s ≠ "" → trimmed s → cleaned_text (Some s) = s.
Proof.
  intros Hne Ht. unfold cleaned_text. destruct s as [|c t]; [done|].
  cbn [truthy nonempty_str from_option id].
  rewrite strip_fixed by done. done.
Qed.

(** X1. The output of [/text/best] is never empty and never starts or ends
    with whitespace: it is the input text with the whitespace at both ends
    removed, or the default sentence when nothing else is left. *)
Theorem text_best_output_clean (environ : gmap string string) (start finish : float)
    (text : option string) (payload : option (gmap string PyValue)) (r : TextResult) :
  text_best environ start finish text payload = Some r →
  output r ≠ "" ∧ trimmed (output r) ∧
  (output r = default_output ∨
   ∃ s pre post, incoming_text text payload = Some s ∧
                 s = pre +:+ output r +:+ post ∧ all_space pre ∧ all_space post).
Proof.
  unfold text_best. intros H.
  destruct (py_round _) as [pt|]; [|done]. injection H as <-. cbn [output].
  destruct (cleaned_text_clean (incoming_text text payload)) as [Hne Ht].
  split_and!; [done..|]. unfold cleaned_text.
  destruct (incoming_text text payload) as [s|]; [|by left].
  destruct s as [|c t]; [by left|]. cbn [truthy nonempty_str from_option id].
  - destruct (strip (String c t)) as [|d u] eqn:Hs; cbn [nonempty_str negb]; [by left|].
    right.
    destruct (strip_affixes (String c t)) as (pre & post & Heq & Hpre & Hpost).
    exists (String c t), pre, post. by rewrite <- Hs.
Qed.

Lemma text_best_output_clean_witness :
  ∃ r, text_best ∅ 0 0.5 (Some "  leaf spots? ") None = Some r ∧
       output r = "leaf spots?" ∧ trimmed (output r).
Proof.
  eexists. split_and!; [by vm_compute | done |].
  eapply (text_best_output_clean ∅ 0 0.5 (Some "  leaf spots? ") None). by vm_compute.
Defined.

Lemma incoming_text_form (text : option string) (payload : option (gmap string PyValue)) :
  truthy text = true → incoming_text text payload = text.
Proof. intros H. unfold incoming_text. by rewrite H. Qed.

Lemma all_space_inv (c : ascii) (s : string) :
  all_space (String c s) → is_space c = true ∧ all_space s.
Proof.
  intros H. split.
  - apply H. cbn. constructor.
  - intros d Hd. apply H. cbn. by constructor.
Qed.

Lemma all_space_app (pre post : string) :
  all_space pre → all_space post → all_space (pre +:+ post).
Proof.
  induction pre as [|c pre IH]; [done|]. intros Hpre Hpost.
  apply all_space_inv in Hpre as [Hc Hpre].
  change (String c pre +:+ post) with (String c (pre +:+ post)).
  apply all_space_cons; [done | by apply IH].
Qed.

Lemma lstrip_all_space (s : string) : all_space s → lstrip s = "".
Proof.
  induction s as [|c s IH]; [done|]. intros H.
  apply all_space_inv in H as [Hc Hs]. cbn [lstrip]. rewrite Hc. by apply IH.
Qed.

(** Stripping leaves nothing exactly of a string of whitespace. *)
Lemma strip_empty_iff (s : string) : strip s = "" ↔ all_space s.
Proof.
  split.
  - intros H. destruct (strip_affixes s) as (pre & post & Hs & Hpre & Hpost).
    rewrite H in Hs. rewrite Hs. by apply all_space_app.
  - intros H. unfold strip. by rewrite lstrip_all_space.
Qed.

(** X2. The answer of [/text/best] to a request read as a form, where the
    body parameter is not a dict ([payload] is [None]). The output is the
    default sentence when the form field is missing and when it holds
    nothing but whitespace; otherwise it is the form field with the
    whitespace at both ends removed, which is not empty. A form field that is
    not empty decides alone: no body changes the answer. *)
Theorem text_best_sources (environ : gmap string string) (start finish : float)
    (text : option string) (r : TextResult) :
  text_best environ start finish text None = Some r →
  (text = None → output r = default_output) ∧
  (∀ s, text = Some s → all_space s → output r = default_output) ∧
  (∀ s, text = Some s → ¬ all_space s → output r = strip s ∧ strip s ≠ "") ∧
  (∀ payload, truthy text = true →
     text_best environ start finish text payload = Some r).
Proof.
  intros H. assert (output r = cleaned_text text) as Hout.
  { unfold text_best in H. destruct (py_round _); [|done]. injection H as <-. cbn.
    f_equal. unfold incoming_text. by destruct (negb (truthy text)). }
  split_and!.
  - intros ->. by rewrite Hout.
  - intros s -> Hs. rewrite Hout. unfold cleaned_text.
    destruct s as [|c s]; [done|]. cbn [truthy nonempty_str from_option id].
    by rewrite (proj2 (strip_empty_iff _) Hs).
  - intros s -> Hs. rewrite Hout. unfold cleaned_text.
    destruct s as [|c s]; [destruct Hs; apply all_space_nil|].
    cbn [truthy nonempty_str from_option id].
    assert (strip (String c s) ≠ "") as Hne by (by rewrite strip_empty_iff).
    split; [|done]. by destruct (strip (String c s)).
  - intros payload Ht. rewrite <- H. unfold text_best.
    by rewrite !incoming_text_form.
Qed.

Lemma text_best_sources_witness :
  ∃ r, text_best ∅ 0 0.5 (Some "  leaf spots? ") None = Some r ∧
       output r = "leaf spots?" ∧
       text_best ∅ 0 0.5 (Some "  leaf spots? ") (Some {[ "text" := VStr "rust" ]})
         = Some r.
Proof.
  eexists. split; [vm_compute; reflexivity|].
  destruct (text_best_sources ∅ 0 0.5 (Some "  leaf spots? ") _
              ltac:(vm_compute; reflexivity)) as (_ & _ & Hstrip & Hbody).
  split; [|by apply Hbody].
  destruct (Hstrip "  leaf spots? " eq_refl) as [Hout _]; [|exact Hout].
  intros Hs. by pose proof (Hs "l"%char ltac:(cbn; by repeat constructor)).
Defined.

(** X3. [/text/best] is idempotent: sending an answer's output back as the
    form field, with any body, gives the same answer. *)
Theorem text_best_idempotent (environ : gmap string string) (start finish : float)
    (text : option string) (payload payload' : option (gmap string PyValue))
    (r : TextResult) :
  text_best environ start finish text payload = Some r →
  text_best environ start finish (Some (output r)) payload' = Some r.
Proof.
  intros H. unfold text_best in H |- *. destruct (py_round _) as [pt|]; [|done].
  injection H as <-. cbn [output] in *.
  destruct (cleaned_text_clean (incoming_text text payload)) as [Hne Ht].
  rewrite incoming_text_form by by destruct (cleaned_text _).
  by rewrite cleaned_text_fixed.
Qed.

Lemma text_best_idempotent_witness :
  ∃ r, text_best ∅ 0 0.5 (Some "  leaf spots? ") None = Some r ∧
       text_best ∅ 0 0.5 (Some (output r)) (Some {[ "text" := VInt 7 ]}) = Some r.
Proof.
  eexists. split; [by vm_compute|].
  apply (text_best_idempotent ∅ 0 0.5 (Some "  leaf spots? ") None). by vm_compute.
Defined.

(** ** [detect_objects] and [classify_crop]: labels and loops *)

Lemma py_getitem_nonneg {A : Type} (l : list A) (i : Z) :
  0 ≤ i → py_getitem l i = l !! Z.to_nat i.
Proof. intros H. unfold py_getitem. by rewrite (proj2 (Z.leb_le 0 i) H). Qed.

(** A class index that is not negative always has a label. *)
Lemma class_name_nonneg (names : list string) (k : Z) :
  0 ≤ k → is_Some (class_name names k).
Proof.
  intros Hk. unfold class_name. destruct (Z.ltb_spec k (Z.of_nat (length names))).
  - rewrite py_getitem_nonneg by done. apply lookup_lt_is_Some. lia.
  - by eexists.
Qed.

(** X4. The guard of the detection label only looks upwards. An index
    inside the list gives the category name, an index at or above its length
    gives the decimal string of the index, and different such indices give
    different strings; a negative index is not caught: down to [-len] it
    reads from the end of the list, below that it raises. *)
Theorem class_name_cases (names : list string) (k : Z) :
  let n := Z.of_nat (length names) in
  (0 ≤ k < n → class_name names k = names !! Z.to_nat k ∧ is_Some (class_name names k)) ∧
  (n ≤ k → class_name names k = Some (pretty k)) ∧
  (∀ k', n ≤ k → n ≤ k' → class_name names k = class_name names k' → k = k') ∧
  (- n ≤ k < 0 → class_name names k = names !! Z.to_nat (n + k) ∧
                 is_Some (class_name names k)) ∧
  (k < - n → class_name names k = None).
Proof.
  cbn zeta. unfold class_name, py_getitem.
  assert (∀ j, Z.of_nat (length names) ≤ j →
            (j <? Z.of_nat (length names)) = false) as Hge by (intros; lia).
  split_and!.
  - intros [H0 Hn]. rewrite (proj2 (Z.ltb_lt _ _) Hn), (proj2 (Z.leb_le _ _) H0).
    split; [done|]. apply lookup_lt_is_Some. lia.
  - intros Hn. by rewrite Hge.
  - intros k' Hk Hk'. rewrite !Hge by done. intros [= H]. by apply (inj pretty) in H.
  - intros [Hn H0]. rewrite (proj2 (Z.ltb_lt k _)) by lia.
    rewrite (proj2 (Z.leb_gt 0 k)) by lia. rewrite (proj2 (Z.leb_le _ _) Hn).
    split; [done|]. apply lookup_lt_is_Some. lia.
  - intros Hn. rewrite (proj2 (Z.ltb_lt k _)) by lia.
    rewrite (proj2 (Z.leb_gt 0 k)) by lia. by rewrite (proj2 (Z.leb_gt _ k)) by lia.
Qed.

Lemma class_name_cases_witness :
  0 ≤ 1 < Z.of_nat (length ["background"; "person"]) ∧
  class_name ["background"; "person"] 1 = Some "person".
Proof.
  split; [done|].
  destruct (proj1 (class_name_cases ["background"; "person"] 1) ltac:(done)) as [-> _].
  reflexivity.
Defined.

Lemma detect_loop_spec (names : list string) (boxes : list FBox) (labels : list Z)
    (scores : list float) (range : list nat) (acc dets : list Detection) :
  detect_loop names boxes labels scores range acc = Some dets →
  ∃ news, dets = acc ++ news ∧
          Forall2 (λ i d, detection_at names boxes labels scores i = Some d) range news.
Proof.
  revert acc. induction range as [|i range IH]; intros acc H; cbn [detect_loop] in H.
  - injection H as <-. exists []. by rewrite app_nil_r.
  - destruct (detection_at names boxes labels scores i) as [d|] eqn:Hd; [|done]. cbn in H.
    apply IH in H as (news & -> & Hall). exists (d :: news).
    rewrite <- app_assoc. split; [done | by constructor].
Qed.

Lemma detection_at_inv (names : list string) (boxes : list FBox) (labels : list Z)
    (scores : list float) (i : nat) (d : Detection) :
  detection_at names boxes labels scores i = Some d →
  boxes !! i = Some (det_box d) ∧ scores !! i = Some (det_confidence d) ∧
  ∃ k, labels !! i = Some k ∧ class_name names k = Some (det_label d).
Proof.
  unfold detection_at. intros H.
  destruct (boxes !! i) as [b|]; [|done]. cbn in H.
  destruct (scores !! i) as [c|]; [|done]. cbn in H.
  destruct (labels !! i) as [k|]; [|done]. cbn in H.
  destruct (class_name names k) as [n|] eqn:Hn; [|done]. cbn in H.
  injection H as <-. cbn. split_and!; [done..|]. by exists k.
Qed.

(** X5. The detections [detect_objects] returns. There are at most 50,
    the first [min(len(boxes), 50)] of the detector's output in its order:
    detection [i] has box [i], score [i] and the label of class index [i].
    When the output lacks boxes, labels or scores there is no detection and
    no error. *)
Theorem detections_of_shape (names : list string) (outputs : DetectorOutput)
    (dets : list Detection) :
  detections_of names outputs = Some dets →
  (length dets ≤ 50)%nat ∧
  (out_boxes outputs = None ∨ out_labels outputs = None ∨ out_scores outputs = None →
     dets = []) ∧
  (∀ boxes labels scores,
     out_boxes outputs = Some boxes → out_labels outputs = Some labels →
     out_scores outputs = Some scores →
     length dets = Nat.min (length boxes) 50 ∧
     ∀ (i : nat) d, dets !! i = Some d →
       boxes !! i = Some (det_box d) ∧ scores !! i = Some (det_confidence d) ∧
       ∃ k, labels !! i = Some k ∧ class_name names k = Some (det_label d)).
Proof.
  unfold detections_of. intros H.
  destruct (out_boxes outputs) as [boxes|]; cycle 1.
  { injection H as <-. split_and!; [cbn; lia | done | done]. }
  destruct (out_labels outputs) as [labels|]; cycle 1.
  { injection H as <-. split_and!; [cbn; lia | done | done]. }
  destruct (out_scores outputs) as [scores|]; cycle 1.
  { injection H as <-. split_and!; [cbn; lia | done | done]. }
  apply detect_loop_spec in H as (news & -> & Hall). cbn [app].
  pose proof (Forall2_length _ _ _ Hall) as Hlen. rewrite length_seq in Hlen.
  split_and!; [lia | by intros [? | [? | ?]] |].
  intros ? ? ? [= <-] [= <-] [= <-]. split; [done|].
  intros i d Hi. destruct (Forall2_lookup_r _ _ _ _ _ Hall Hi) as (j & Hj & Hd).
  apply lookup_seq in Hj as [-> _]. by apply detection_at_inv.
Qed.

Lemma detections_of_shape_witness :
  ∃ dets,
    detections_of ["background"; "person"]
      (mkDetectorOutput (Some [(1, 2, 3, 4); (5, 6, 7, 8)]%float) (Some [1; 7])
         (Some [0.9; 0.8]%float)) = Some dets ∧
    (length dets ≤ 50)%nat ∧ det_label <$> dets = ["person"; "7"].
Proof.
  eexists. split; [by vm_compute|]. split; [|done].
  eapply (λ H, proj1 (detections_of_shape ["background"; "person"]
            (mkDetectorOutput (Some [(1, 2, 3, 4); (5, 6, 7, 8)]%float) (Some [1; 7])
               (Some [0.9; 0.8]%float)) _ H)).
  by vm_compute.
Defined.

(** X6. On the output the detector really gives, three sequences of one
    length with class indices that are not negative, the loop of
    [detect_objects] never raises. *)
Theorem detections_of_aligned (names : list string) (boxes : list FBox)
    (labels : list Z) (scores : list float) :
  length labels = length boxes → length scores = length boxes →
  Forall (λ k, 0 ≤ k) labels →
  is_Some (detections_of names (mkDetectorOutput (Some boxes) (Some labels) (Some scores))).
Proof.
  intros Hl Hs Hk. unfold detections_of. cbn.
  assert (∀ range acc, Forall (λ i : nat, (i < length boxes)%nat) range →
            is_Some (detect_loop names boxes labels scores range acc)) as Hloop.
  { induction range as [|i range IH]; intros acc Hr; [by eexists|].
    apply Forall_cons in Hr as [Hi Hr]. cbn [detect_loop].
    destruct (lookup_lt_is_Some_2 boxes i Hi) as [b Hb].
    destruct (lookup_lt_is_Some_2 scores i ltac:(lia)) as [c Hc].
    destruct (lookup_lt_is_Some_2 labels i ltac:(lia)) as [k Hki].
    assert (is_Some (class_name names k)) as [n Hn].
    { rewrite Forall_forall in Hk. pose proof (Hk k (list_elem_of_lookup_2 _ _ _ Hki)).
      by apply class_name_nonneg. }
    unfold detection_at. rewrite Hb, Hc, Hki. cbn. rewrite Hn. cbn. apply IH, Hr. }
  apply Hloop, Forall_forall. intros i Hi. apply elem_of_seq in Hi. lia.
Qed.

Lemma detections_of_aligned_witness :
  is_Some (detections_of ["background"; "person"]
             (mkDetectorOutput (Some [(1, 2, 3, 4); (5, 6, 7, 8)]%float) (Some [1; 7])
                (Some [0.9; 0.8]%float))).
Proof.
  apply detections_of_aligned; [done | done | repeat constructor; lia].
Defined.

(** *** Labels that are class indices *)

Lemma chars_app (s1 s2 : string) :
  list_ascii_of_string (s1 +:+ s2) = list_ascii_of_string s1 ++ list_ascii_of_string s2.
Proof.
  induction s1 as [|c s1 IH]; [done|].
  change (String c s1 +:+ s2) with (String c (s1 +:+ s2)).
  cbn [list_ascii_of_string]. by rewrite IH.
Qed.

Lemma plain_cons (c : ascii) (s : string) :
  index_char c = true → plain s → plain (String c s).
Proof.
  intros Hc Hs c' Hc'. cbn in Hc'. apply elem_of_cons in Hc' as [-> | Hc']; [done|].
  by apply Hs.
Qed.

Lemma plain_nil : plain "".
Proof. intros c Hc. cbn in Hc. by apply elem_of_nil in Hc. Qed.

Lemma pretty_N_char_plain (x : N) : index_char (pretty_N_char x) = true.
Proof. unfold pretty_N_char. by repeat case_match. Qed.

Lemma pretty_N_go_plain (x : N) (s : string) : plain s → plain (pretty_N_go x s).
Proof.
  revert s. induction (N.lt_wf_0 x) as [x _ IH]; intros s Hs.
  destruct (decide (x = 0%N)) as [-> | Hx]; [by rewrite pretty_N_go_0|].
  rewrite pretty_N_go_step by lia. apply IH.
  - apply N.div_lt; lia.
  - apply plain_cons; [apply pretty_N_char_plain | done].
Qed.

(** [str] of an int is made of digits and at most a minus sign. *)
Lemma pretty_Z_plain (z : Z) : plain (pretty z).
Proof.
  assert (∀ p, plain (pretty (N.pos p))) as Hpos.
  { intros p. unfold pretty, pretty_N. rewrite decide_False by done.
    apply pretty_N_go_plain, plain_nil. }
  destruct z as [|p|p].
  - apply plain_cons; [done | apply plain_nil].
  - apply Hpos.
  - apply (plain_cons "-"); [done | apply Hpos].
Qed.

Lemma lower_ascii_plain (c : ascii) : index_char c = true → lower_ascii c = c.
Proof. destruct c as [[] [] [] [] [] [] [] []]; by vm_compute. Qed.

Lemma lower_plain (s : string) : plain s → lower s = s.
Proof.
  induction s as [|c s IH]; [done|]. intros H. cbn [lower].
  rewrite lower_ascii_plain, IH; [done | |].
  - intros c' Hc'. apply H. cbn. by apply elem_of_cons; right.
  - apply H. cbn. by apply elem_of_cons; left.
Qed.

(** A plain string contains no token that starts with a letter. *)
Lemma plain_no_token (toks : list string) (s : string) :
  forallb starts_with_letter toks = true → plain s → any_in toks s = false.
Proof.
  intros Htoks Hs. apply not_true_iff_false. rewrite any_in_spec.
  intros (tok & Hin & pre & post & ->).
  rewrite forallb_forall in Htoks. apply list_elem_of_In, Htoks in Hin.
  destruct tok as [|a t]; [done|]. cbn in Hin.
  rewrite (Hs a) in Hin; [done|].
  rewrite chars_app. apply elem_of_app; right. cbn. by apply elem_of_cons; left.
Qed.

Lemma index_label_no_token (toks : list string) (z : Z) :
  forallb starts_with_letter toks = true → any_in toks (lower (pretty z)) = false.
Proof.
  intros H. rewrite lower_plain by apply pretty_Z_plain.
  apply plain_no_token; [done | apply pretty_Z_plain].
Qed.

(** X7. Without a label list the classifier's label is the class index in
    decimal, and so it is for an index at or above the length of the list.
    Such a label fires no rule: the domain comes from the detections alone,
    livestock when an animal is detected and plant otherwise; no disease is
    ever detected and in the plant domain the disease name is Healthy. *)
Theorem index_label_fires_no_rule (labels : option (list string)) (idx : Z) :
  labels = None ∨ labels = Some [] ∨
    (∃ names, labels = Some names ∧ Z.of_nat (length names) ≤ idx) →
  effnet_label labels idx = Some (pretty idx) ∧
  (∀ dets, detected_in animal_tokens dets →
           estimate_domain dets (pretty idx) = "livestock") ∧
  (∀ dets, ¬ detected_in animal_tokens dets →
           estimate_domain dets (pretty idx) = "plant") ∧
  (∀ domain, disease_detected domain (pretty idx) = false) ∧
  disease_name "plant" (pretty idx) = "Healthy".
Proof.
  intros Hlabels.
  assert (∀ domain, disease_detected domain (pretty idx) = false) as Hdis.
  { intros domain. unfold disease_detected. destruct (decide _); [|done].
    by apply index_label_no_token. }
  split_and!.
  - destruct Hlabels as [-> | [-> | (names & -> & Hlen)]]; [done | done |].
    unfold effnet_label. rewrite (proj2 (Z.ltb_ge idx _)) by done.
    by rewrite andb_false_r.
  - intros dets Ha.
    destruct (estimate_domain_rules dets (pretty idx)) as [[_ ?] | [[? _] | [? _]]]; done.
  - intros dets Ha. destruct (estimate_domain_rules dets (pretty idx))
      as [[? _] | [(_ & _ & ?) | (_ & _ & H)]]; [done | done |].
    destruct H as [[H _] | [(_ & ? & ?) | [(_ & _ & H & _) | (_ & _ & _ & ?)]]];
      [| done | | done].
    + apply any_in_mentions in H. by rewrite index_label_no_token in H.
    + apply any_in_mentions in H. by rewrite index_label_no_token in H.
  - done.
  - unfold disease_name. rewrite Hdis. by rewrite decide_False by by intros ?.
Qed.

Lemma index_label_fires_no_rule_witness :
  effnet_label (Some []) 948 = Some "948" ∧
  estimate_domain [] "948" = "plant" ∧ disease_name "plant" "948" = "Healthy".
Proof.
  destruct (index_label_fires_no_rule (Some []) 948 ltac:(by right; left))
    as (H1 & _ & H2 & _ & H3).
  split_and!; [exact H1 | | exact H3].
  apply (H2 []). by intros (d & Hd & _); apply elem_of_nil in Hd.
Defined.

(** ** Best-region selection on arbitrary floats *)

Lemma ltb_trans (x y z : float) :
  (x <? y)%float = true → (y <? z)%float = true → (x <? z)%float = true.
Proof. intros Hxy Hyz. apply (leb_ltb_trans _ y); [by apply ltb_leb | done]. Qed.

(** Either nothing beat the incoming best, or the result is a later
    confidence above it, stored at the returned index. *)
Lemma select_from_cases (confs : list float) (i : nat) (best : nat * float) :
  (select_from i confs best = best ∧ Forall (λ c, (best.2 <? c)%float = false) confs) ∨
  (∃ j : nat, confs !! j = Some (select_from i confs best).2 ∧
              (select_from i confs best).1 = (i + j)%nat ∧
              (best.2 <? (select_from i confs best).2)%float = true).
Proof.
  revert i best. induction confs as [|c confs IH]; intros i best; [by left|].
  cbn [select_from]. unfold pick_best. destruct (best.2 <? c)%float eqn:Hc.
  - right. destruct (IH (S i) (i, c)) as [[-> _] | (j & Hj & Hidx & Hlt)].
    + exists 0%nat. cbn. split_and!; [done | lia | done].
    + exists (S j). cbn in Hlt. split_and!; [done | lia | by eapply ltb_trans].
  - destruct (IH (S i) best) as [[-> Hall] | (j & Hj & Hidx & Hlt)].
    + left. split; [done | by constructor].
    + right. exists (S j). split_and!; [done | lia | done].
Qed.

(** The selected index is inside a non-empty sequence, whatever the floats. *)
Lemma select_best_in_range (confs : list float) :
  confs ≠ [] → ((select_best confs).1 < length confs)%nat.
Proof.
  intros Hne. unfold select_best.
  destruct (select_from_cases confs 0 (0%nat, (-1.0)%float)) as [[-> _] | (j & Hj & -> & _)].
  - destruct confs; [done|]. cbn. lia.
  - apply lookup_lt_Some in Hj. lia.
Qed.

(** A float above another is not NaN. *)
Lemma ltb_not_nan (x c : float) : (x <? c)%float = true → is_nan c = false.
Proof.
  rewrite ltb_key. intros (a & b & _ & Hb & _). unfold is_nan.
  rewrite FloatAxioms.eqb_spec. unfold SFeqb. rewrite SFcompare_key. unfold fkey in Hb.
  by rewrite Hb, lex_compare_refl.
Qed.

(** A report that is returned has been rendered. *)
Lemma assemble_renders (start finish : float) (l : Locals) (r : AnalysisResult) :
  assemble start finish l = Some r → json_content r = true.
Proof.
  unfold assemble. intros H.
  destruct (affected_area_pct _ _ _ _) as [area|]; [|done]. cbn in H.
  destruct (make_narrative _ _ _ _) as [narrative|]; [|done]. cbn in H.
  destruct (py_round _) as [pt|]; [|done]. cbn in H.
  destruct (percent _) as [pct|]; [|done]. cbn in H.
  unfold json_response in H. destruct (json_content _) eqn:Hj; [|done].
  by injection H as <-.
Qed.

(** Locals with a region whose confidence is NaN or infinite give no
    report. *)
Lemma assemble_refuses (start finish : float) (l : Locals) :
  Exists (λ c, json_float c = false) (entry_confidence <$> l_classified_regions l) →
  assemble start finish l = None.
Proof.
  intros Hex. destruct (assemble start finish l) as [r|] eqn:Hr; [|done]. exfalso.
  pose proof (assemble_renders _ _ _ _ Hr) as Hj.
  apply assemble_inv in Hr as (_ & _ & _ & _ & _ & _ & _ & _ & Hreg).
  unfold json_content in Hj. apply andb_prop in Hj as [_ Hj]. rewrite Hreg in Hj.
  rewrite forallb_forall in Hj. apply Exists_exists in Hex as (c & Hc & Hbad).
  apply list_elem_of_fmap in Hc as (e & -> & He).
  apply list_elem_of_In, Hj in He. unfold json_entry in He.
  apply andb_prop in He as [He _]. congruence.
Qed.

Section BestRegion.

Context {Upload Image : Type}.
Context (pil_image_from_upload : Upload → option Image).
Context (size : Image → Z * Z).
Context (crop : Image → Box → option Image).
Context (detect_objects : Image → option (list Detection)).
Context (classify_crop : Image → option ClsResult).
Context (start finish : float).

Local Abbreviation resolve :=
  (resolve Upload Image pil_image_from_upload size crop detect_objects classify_crop).
Local Abbreviation classify :=
  (classify Upload Image pil_image_from_upload size crop detect_objects classify_crop
     start finish).

(** X8. Best-region selection without any assumption on the confidences,
    and what becomes of a NaN. Either some region's confidence beat the
    initial [-1.0], and then the best confidence is above [-1.0] and is the
    confidence of the region at the best index; or none did, for instance
    because every confidence is NaN, and then the first region is the
    primary one and the best confidence is still [-1.0]. So a NaN is never
    the best confidence. A run with a NaN or an infinite confidence among
    its regions answers the error, because the response of line 279 cannot
    be rendered; every report that is returned carries finite confidences. *)
Theorem best_region_any_floats file imageDomain l :
  resolve file imageDomain = Some l →
  let confs := entry_confidence <$> l_classified_regions l in
  ((confs !! l_best_idx l = Some (l_best_conf l) ∧
    ((-1.0) <? l_best_conf l)%float = true) ∨
   (Forall never_best confs ∧ l_best_idx l = 0%nat ∧ l_best_conf l = (-1.0)%float)) ∧
  is_nan (l_best_conf l) = false ∧
  (Exists (λ c, json_float c = false) confs → classify file imageDomain = None) ∧
  (∀ r, classify file imageDomain = Some r →
        regions r = l_classified_regions l ∧ Forall (λ c, json_float c = true) confs).
Proof.
  intros Hl. cbn zeta.
  pose proof (resolve_selects_best _ _ _ _ _ _ _ _ Hl) as [Hbest _].
  unfold select_best in Hbest.
  assert ((entry_confidence <$> l_classified_regions l) !! l_best_idx l
            = Some (l_best_conf l) ∧ ((-1.0) <? l_best_conf l)%float = true
          ∨ Forall never_best (entry_confidence <$> l_classified_regions l) ∧
            l_best_idx l = 0%nat ∧ l_best_conf l = (-1.0)%float) as Hcases.
  { destruct (select_from_cases (entry_confidence <$> l_classified_regions l) 0
                (0%nat, (-1.0)%float)) as [[Hsame Hall] | (j & Hj & Hidx & Hlt)];
      rewrite <- Hbest in *; cbn [fst snd] in *.
    - injection Hsame as Hi Hc. by right.
    - replace (0 + j)%nat with j in Hidx by lia. subst j. by left. }
  split_and!; [exact Hcases | | |].
  - destruct Hcases as [[_ Hlt] | (_ & _ & ->)]; [by eapply ltb_not_nan | done].
  - intros Hex. destruct (classify file imageDomain) as [r|] eqn:Hr; [|done]. exfalso.
    apply classify_inv in Hr as (l' & Hl' & Hr). rewrite Hl in Hl'. injection Hl' as <-.
    by rewrite (assemble_refuses _ _ _ Hex) in Hr.
  - intros r Hr. apply classify_inv in Hr as (l' & Hl' & Hr).
    rewrite Hl in Hl'. injection Hl' as <-.
    pose proof (assemble_renders _ _ _ _ Hr) as Hj.
    apply assemble_inv in Hr as (_ & _ & _ & _ & _ & _ & _ & _ & Hreg).
    split; [done|]. unfold json_content in Hj. apply andb_prop in Hj as [_ Hj].
    rewrite Hreg in Hj. rewrite forallb_forall in Hj.
    apply Forall_forall. intros c Hc. apply list_elem_of_fmap in Hc as (e & -> & He).
    apply list_elem_of_In, Hj in He. unfold json_entry in He.
    by apply andb_prop in He as [He _].
Qed.

End BestRegion.

Lemma best_region_any_floats_witness :
  ∃ l, Stub.locals nan_photo None = Some l ∧
       l_best_idx l = 0%nat ∧ l_best_conf l = (-1.0)%float ∧
       Stub.run nan_photo None = None.
Proof.
  eexists. split; [vm_compute; reflexivity|]. split; [reflexivity|]. split; [reflexivity|].
  refine (proj1 (proj2 (proj2 (best_region_any_floats Stub.decode Stub.img_size Stub.crop
                                 Stub.detect Stub.classify_crop 0%float 0.25%float
                                 nan_photo None _ ltac:(vm_compute; reflexivity)))) _).
  by repeat constructor.
Defined.

(** ** Regions, detections and what can fail *)

(** [resolve], one step at a time. *)
Lemma resolve_unfold {Upload Image : Type} (pil_image_from_upload : Upload → option Image)
    (size : Image → Z * Z) (crop : Image → Box → option Image)
    (detect_objects : Image → option (list Detection))
    (classify_crop : Image → option ClsResult) file imageDomain pil_img dets regions boxes
    classified best_idx best_conf primary :
  pil_image_from_upload file = Some pil_img →
  detect_objects pil_img = Some dets →
  extract_regions Image crop pil_img (size pil_img).1 (size pil_img).2 dets
    = Some (regions, boxes) →
  classify_loop Image classify_crop boxes 0 regions [] (0%nat, (-1.0)%float)
    = Some (classified, (best_idx, best_conf)) →
  classified !! best_idx = Some primary →
  resolve Upload Image pil_image_from_upload size crop detect_objects classify_crop
    file imageDomain
  = Some (mkLocals (size pil_img).1 (size pil_img).2 dets boxes classified best_idx
            best_conf (entry_label primary)
            (resolve_domain imageDomain dets (entry_label primary))).
Proof.
  intros Himg Hdet Hex Hloop Hprim. unfold resolve. rewrite Himg. cbn.
  destruct (size pil_img) as [width height]. cbn in *.
  rewrite Hdet. cbn. rewrite Hex. cbn. rewrite Hloop. cbn. by rewrite Hprim.
Qed.

Section Regions.

Context {Upload Image : Type}.
Context (pil_image_from_upload : Upload → option Image).
Context (size : Image → Z * Z).
Context (crop : Image → Box → option Image).
Context (detect_objects : Image → option (list Detection)).
Context (classify_crop : Image → option ClsResult).
Context (start finish : float).

Local Abbreviation resolve :=
  (resolve Upload Image pil_image_from_upload size crop detect_objects classify_crop).
Local Abbreviation classify :=
  (classify Upload Image pil_image_from_upload size crop detect_objects classify_crop
     start finish).

(** The two lists of the extraction have one length, and it is not zero. *)
Lemma extract_regions_lengths pil_img width height dets regions boxes :
  extract_regions Image crop pil_img width height dets = Some (regions, boxes) →
  length regions = length boxes ∧
  length boxes = Nat.max 1 (length dets) ∧
  (dets ≠ [] → Forall2 (λ det b, clamp_box width height (det_box det) = Some b) dets boxes).
Proof.
  destruct dets as [|d dets]; cbn [extract_regions].
  - intros [= <- <-]. done.
  - intros H. apply extract_loop_spec in H as (nr & nb & -> & -> & Hlen & Hall).
    pose proof (Forall2_length _ _ _ Hall) as Hlen'. cbn [app length] in *.
    split_and!; [lia | lia | done].
Qed.

(** The classification loop returns when the classifier answers on its
    regions and the boxes reach as far as the regions. *)
Lemma classify_loop_total boxes (i : nat) regions classified best :
  Forall (λ region, is_Some (classify_crop region)) regions →
  (i + length regions ≤ length boxes)%nat →
  is_Some (classify_loop Image classify_crop boxes i regions classified best).
Proof.
  intros Hcls. revert i classified best.
  induction Hcls as [|region regions [cls Hcl] _ IH]; intros i classified best Hlen;
    [by eexists|].
  cbn [classify_loop length] in *. rewrite Hcl. cbn.
  destruct (lookup_lt_is_Some_2 boxes i ltac:(lia)) as [box ->]. cbn.
  apply IH. lia.
Qed.

(** X9. Lines 180 to 220 fail only where a collaborator does. When the
    upload decodes, the detector answers, and for every detection the clamp
    of its box is computed, the crop of that box succeeds and the classifier
    answers on the cropped region (with no detection: the classifier answers
    on the whole picture), the run reaches the domain: neither
    [boxes_for_regions[i]] nor [classified_regions[best_idx]] can raise. *)
Theorem resolve_total file imageDomain pil_img dets :
  pil_image_from_upload file = Some pil_img →
  detect_objects pil_img = Some dets →
  Forall (λ det, ∃ b region,
            clamp_box (size pil_img).1 (size pil_img).2 (det_box det) = Some b ∧
            crop pil_img b = Some region ∧ is_Some (classify_crop region)) dets →
  (dets = [] → is_Some (classify_crop pil_img)) →
  is_Some (resolve file imageDomain).
Proof.
  intros Himg Hdet Hall Hwhole.
  assert (∃ regions boxes,
            extract_regions Image crop pil_img (size pil_img).1 (size pil_img).2 dets
              = Some (regions, boxes) ∧
            length regions = length boxes ∧ regions ≠ [] ∧
            Forall (λ region, is_Some (classify_crop region)) regions)
    as (regions & boxes & Hex & Hlen & Hne & Hcls).
  { destruct dets as [|d dets0].
    - eexists _, _. split_and!; [done.. |]. constructor; [by apply Hwhole | done].
    - cbn [extract_regions].
      destruct (extract_loop_total crop _ pil_img _ _ (d :: dets0) [] [] Hall)
        as (nr & nb & -> & Hnr & Hnb & HP).
      exists nr, nb. split_and!; [done | lia | by intros -> | done]. }
  destruct (classify_loop_total boxes 0 regions [] (0%nat, (-1.0)%float) Hcls
              ltac:(cbn; lia)) as [[classified [best_idx best_conf]] Hloop].
  pose proof (classify_loop_spec _ _ _ _ _ _ _ _ Hloop) as (news & Hnews & Hbest & Hn & _).
  cbn in Hnews. subst classified.
  assert (is_Some (news !! best_idx)) as [primary Hprim].
  { apply lookup_lt_is_Some.
    pose proof (select_best_in_range (entry_confidence <$> news)) as Hr.
    unfold select_best in Hr. rewrite <- Hbest in Hr. rewrite length_fmap in Hr.
    apply Hr. destruct news; [|done]. destruct regions; [done | cbn in Hn; lia]. }
  rewrite (resolve_unfold _ _ _ _ _ _ _ _ _ _ _ _ _ _ _ Himg Hdet Hex Hloop Hprim).
  by eexists.
Qed.

(** X10. The regions of the report follow the detections. With no detection
    there is one region; otherwise there is one region per detection, in the
    order of the detections, and the box of region [i] is the clamp of the
    box of detection [i]. The report hands the detections on as the detector
    gave them. *)
Theorem regions_follow_detections file imageDomain r :
  classify file imageDomain = Some r →
  ∃ l, resolve file imageDomain = Some l ∧
    detections r = l_detections l ∧
    length (regions r) = Nat.max 1 (length (detections r)) ∧
    ∀ (i : nat) det, detections r !! i = Some det →
      ∃ e, regions r !! i = Some e ∧
           clamp_box (l_width l) (l_height l) (det_box det) = Some (entry_box e).
Proof.
  intros H. apply classify_inv in H as (l & Hl & Hr). exists l. split; [done|].
  apply resolve_inv in Hl as (img & regs & _ & _ & _ & _ & Hex & Hloop & _).
  apply assemble_inv in Hr as (_ & _ & _ & _ & _ & _ & _ & -> & ->).
  pose proof (extract_regions_lengths _ _ _ _ _ _ Hex) as (Hlen & Hmax & Hall).
  apply classify_loop_spec in Hloop as (news & Hnews & _ & Hn & Hboxes). cbn in Hnews.
  rewrite Hnews. split_and!; [done | lia |].
  intros i det Hi.
  assert (l_detections l ≠ []) as Hne by (intros E; by rewrite E in Hi).
  destruct (Forall2_lookup_l _ _ _ _ _ (Hall Hne) Hi) as (b & Hb & Hclamp).
  destruct (lookup_lt_is_Some_2 news i) as [e He].
  { apply lookup_lt_Some in Hb. lia. }
  exists e. split; [done|]. destruct (Hboxes i e He) as [Hbox _]. cbn in Hbox.
  rewrite Hb in Hbox. by injection Hbox as <-.
Qed.

End Regions.

Lemma resolve_total_witness :
  is_Some (Stub.locals Stub.overlap_photo None).
Proof.
  apply (resolve_total Stub.decode Stub.img_size Stub.crop Stub.detect Stub.classify_crop
           Stub.overlap_photo None Stub.overlap_photo
           (Stub.img_detections Stub.overlap_photo) eq_refl eq_refl).
  - cbn. repeat (apply Forall_cons; split;
                   [eexists _, _; split_and!; [vm_compute; reflexivity | reflexivity |
                                                by eexists]|]).
    by constructor.
  - done.
Defined.

Lemma regions_follow_detections_witness :
  ∃ r, Stub.run Stub.overlap_photo None = Some r ∧
       length (regions r) = 2%nat ∧ entry_box <$> regions r = [(0, 0, 10, 10); (0, 0, 10, 10)].
Proof.
  eexists. split; [by vm_compute|].
  destruct (regions_follow_detections Stub.decode Stub.img_size Stub.crop Stub.detect
              Stub.classify_crop 0%float 0.25%float Stub.overlap_photo None _
              ltac:(by vm_compute)) as (l & _ & _ & Hlen & _).
  split; [exact Hlen | done].
Defined.

(** ** More of the domain estimator *)

Lemma lower_ascii_idemp (c : ascii) : lower_ascii (lower_ascii c) = lower_ascii c.
Proof. destruct c as [[] [] [] [] [] [] [] []]; by vm_compute. Qed.

Lemma lower_idemp (s : string) : lower (lower s) = lower s.
Proof. induction s as [|c s IH]; [done|]. cbn. by rewrite lower_ascii_idemp, IH. Qed.

Lemma detection_labels_lower (dets : list Detection) :
  detection_labels (lower_label <$> dets) = detection_labels dets.
Proof.
  unfold detection_labels. f_equal. rewrite <- list_fmap_compose.
  apply list_fmap_ext. intros i d _. cbn. apply lower_idemp.
Qed.

Lemma detection_labels_perm (dets dets' : list Detection) :
  dets ≡ₚ dets' → detection_labels dets = detection_labels dets'.
Proof. intros H. unfold detection_labels. apply list_to_set_perm_L. by rewrite H. Qed.

Lemma detection_labels_dup (d : Detection) (dets : list Detection) :
  d ∈ dets → detection_labels (d :: dets) = detection_labels dets.
Proof.
  intros Hd. unfold detection_labels. cbn.
  assert (lower (det_label d) ∈ detection_labels dets) as Hin.
  { apply elem_of_list_to_set, list_elem_of_fmap. by exists d. }
  unfold detection_labels in Hin. apply leibniz_equiv. apply set_equiv. intros x.
  rewrite elem_of_union, elem_of_singleton. split; [by intros [-> | ?] | by right].
Qed.

(** X11. The Domain Estimator reads the detections as a set of lower-case
    labels and the classification label in lower case: the order of the
    detections, a repeated detection, and the case of any label do not change
    the domain. *)
Theorem estimate_domain_insensitive (dets dets' : list Detection) (cls_label : string) :
  (dets ≡ₚ dets' → estimate_domain dets cls_label = estimate_domain dets' cls_label) ∧
  (∀ d, d ∈ dets → estimate_domain (d :: dets) cls_label = estimate_domain dets cls_label) ∧
  estimate_domain (lower_label <$> dets) cls_label = estimate_domain dets cls_label ∧
  estimate_domain dets (lower cls_label) = estimate_domain dets cls_label.
Proof.
  unfold estimate_domain. split_and!.
  - intros H. by rewrite (detection_labels_perm _ _ H).
  - intros d Hd. by rewrite (detection_labels_dup _ _ Hd).
  - by rewrite detection_labels_lower.
  - by rewrite lower_idemp.
Qed.

Lemma estimate_domain_insensitive_witness :
  [mkDetection "Cow" 0.9 (0, 0, 1, 1)%float; mkDetection "vase" 0.5 (0, 0, 1, 1)%float]
    ≡ₚ [mkDetection "vase" 0.5 (0, 0, 1, 1)%float; mkDetection "Cow" 0.9 (0, 0, 1, 1)%float] ∧
  estimate_domain
    [mkDetection "Cow" 0.9 (0, 0, 1, 1)%float; mkDetection "vase" 0.5 (0, 0, 1, 1)%float] "leaf"
  = estimate_domain
    [mkDetection "vase" 0.5 (0, 0, 1, 1)%float; mkDetection "Cow" 0.9 (0, 0, 1, 1)%float] "leaf".
Proof.
  assert ([mkDetection "Cow" 0.9 (0, 0, 1, 1)%float; mkDetection "vase" 0.5 (0, 0, 1, 1)%float]
    ≡ₚ [mkDetection "vase" 0.5 (0, 0, 1, 1)%float; mkDetection "Cow" 0.9 (0, 0, 1, 1)%float])
    as H by apply Permutation_swap.
  split; [exact H|].
  exact (proj1 (estimate_domain_insensitive _ _ "leaf") H).
Defined.

(** X12. Precedence among the rules on the classification label, when no
    detection decides. A fish token in the label gives fish even if a plant
    or an animal token is there too (a tiger shark is a fish); failing that a
    plant token gives plant even beside an animal token; failing both an
    animal token gives livestock. *)
Theorem label_rules_precedence (dets : list Detection) (cls_label : string) :
  ¬ detected_in animal_tokens dets → ¬ detected_in plant_tokens dets →
  (mentions fish_label_tokens cls_label → estimate_domain dets cls_label = "fish") ∧
  (¬ mentions fish_label_tokens cls_label → mentions plant_label_tokens cls_label →
     estimate_domain dets cls_label = "plant") ∧
  (¬ mentions fish_label_tokens cls_label → ¬ mentions plant_label_tokens cls_label →
   mentions animal_label_tokens cls_label →
     estimate_domain dets cls_label = "livestock").
Proof.
  intros Ha Hp.
  destruct (estimate_domain_rules dets cls_label) as [[? _] | [(_ & ? & _) | (_ & _ & H)]];
    [done | done |].
  split_and!.
  - intros Hf.
    destruct H as [[_ ?] | [(? & _) | [(? & _) | (? & _)]]]; done.
  - intros Hf Hl.
    destruct H as [[? _] | [(_ & _ & ?) | [(_ & ? & _) | (_ & ? & _)]]]; done.
  - intros Hf Hl Hv.
    destruct H as [[? _] | [(_ & ? & _) | [(_ & _ & _ & ?) | (_ & _ & ? & _)]]]; done.
Qed.

Lemma label_rules_precedence_witness :
  mentions fish_label_tokens "Tiger Shark" ∧ mentions animal_label_tokens "Tiger Shark" ∧
  estimate_domain [] "Tiger Shark" = "fish".
Proof.
  assert (∀ toks, ¬ detected_in toks []) as Hnil.
  { intros toks (d & Hd & _). by apply elem_of_nil in Hd. }
  assert (mentions fish_label_tokens "Tiger Shark") as Hf.
  { apply any_in_mentions. by vm_compute. }
  split_and!; [exact Hf | apply any_in_mentions; by vm_compute |].
  exact (proj1 (label_rules_precedence [] "Tiger Shark" (Hnil _) (Hnil _)) Hf).
Defined.

(** ** More of the report *)

(** A rounded double with a clear sign bit is not negative. *)
Lemma half_even_nonneg (num den : Z) : 0 ≤ num → 0 < den → 0 ≤ half_even num den.
Proof.
  intros Hn Hd. unfold half_even. pose proof (Z.div_pos num den Hn Hd).
  destruct (_ ?= _); [destruct (Z.even _)|..]; lia.
Qed.

Lemma finite_round_nonneg (m : positive) (e : Z) : 0 ≤ finite_to_Z half_even false m e.
Proof.
  unfold finite_to_Z. destruct (0 <=? e) eqn:He.
  - apply Z.mul_nonneg_nonneg; [lia|]. apply Z.pow_nonneg. lia.
  - apply half_even_nonneg; [lia|]. apply Z.pow_pos_nonneg; lia.
Qed.

Lemma binary_round_aux_sign (s : bool) (m e : Z) (l : location) :
  match binary_round_aux prec emax s m e l with
  | S754_zero s' | S754_infinity s' | S754_finite s' _ _ => s' = s
  | S754_nan => True
  end.
Proof.
  unfold binary_round_aux. destruct (shr_fexp _ _ _ _ _) as [mrs' e'].
  destruct (shr_fexp _ _ _ _ _) as [mrs'' e''].
  destruct (shr_m mrs''); [done | | done]. by destruct (_ <=? _).
Qed.

Lemma round_div_nonneg (a b p : Z) : 0 ≤ a → 0 < b → round_div a b = Some p → 0 ≤ p.
Proof.
  intros Ha Hb. unfold round_div, int_true_div.
  rewrite (proj2 (Z.eqb_neq b 0)) by lia.
  destruct b as [|pb|pb]; [lia | | lia]. destruct a as [|pa|pa]; [| | lia].
  - cbn. by intros [= <-].
  - cbn [SFdiv]. destruct (SFdiv_core_binary _ _ _ _ _ _) as [[mz ez] lz].
    pose proof (binary_round_aux_sign (xorb false false) mz ez lz) as Hs.
    destruct (binary_round_aux _ _ _ _ _ _) as [s|s| |s m e]; cbn; try done.
    + by intros [= <-].
    + cbn in Hs. subst s. intros [= <-]. apply finite_round_nonneg.
Qed.

Lemma sum_of_areas_nonneg (boxes : list Box) : 0 ≤ sum_of_areas boxes.
Proof.
  induction boxes as [|[[[x1 y1] x2] y2] boxes IH]; [done|].
  cbn [sum_of_areas foldr box_area] in *. fold (sum_of_areas boxes) in *. nia.
Qed.

Lemma recommendations_for_cases (domain : string) (detected : bool) :
  (recommendations_for domain detected = [] ↔ ¬ known_domain domain) ∧
  (domain = "plant" → detected = true →
     length (recommendations_for domain detected) = 3%nat) ∧
  (known_domain domain → detected = false →
     length (recommendations_for domain detected) = 2%nat).
Proof.
  unfold recommendations_for, known_domain.
  destruct (decide (domain = "plant")) as [-> | Hp].
  { destruct detected; cbn; split_and!; try done; split; try done; intros H; destruct H; by left. }
  destruct (decide (domain = "livestock")) as [-> | Hl].
  { cbn. split_and!; try done. split; [done|]. intros H. destruct H. by right; left. }
  destruct (decide (domain = "fish")) as [-> | Hf].
  { cbn. split_and!; try done. split; [done|]. intros H. destruct H. by right; right. }
  split_and!; [|done|].
  - split; [|done]. by intros _ [? | [? | ?]].
  - by intros [? | [? | ?]].
Qed.

Section ReportFields.

Context {Upload Image : Type}.
Context (pil_image_from_upload : Upload → option Image).
Context (size : Image → Z * Z).
Context (crop : Image → Box → option Image).
Context (detect_objects : Image → option (list Detection)).
Context (classify_crop : Image → option ClsResult).
Context (start finish : float).

Local Abbreviation resolve :=
  (resolve Upload Image pil_image_from_upload size crop detect_objects classify_crop).
Local Abbreviation classify :=
  (classify Upload Image pil_image_from_upload size crop detect_objects classify_crop
     start finish).

(** X13. [affectedArea], when present, is never negative. *)
Theorem affected_area_nonneg file imageDomain r (p : Z) :
  classify file imageDomain = Some r →
  affectedArea (classification r) = Some p → 0 ≤ p.
Proof.
  intros H Hp. apply classify_inv in H as (l & _ & Hr).
  apply assemble_inv in Hr as (Harea & _). rewrite Hp in Harea.
  unfold affected_area_pct in Harea. destruct (decide _); [|done].
  rewrite region_area_sum in Harea.
  destruct (Z.ltb_spec 0 (l_width l * l_height l)) as [Hpos|]; [|done].
  destruct (round_div _ _) as [q|] eqn:Hq; [|done]. injection Harea as ->.
  eapply round_div_nonneg; [| exact Hpos | exact Hq].
  pose proof (sum_of_areas_nonneg (l_boxes_for_regions l)). lia.
Qed.

(** X14. The recommendations follow the domain and the disease flag: none
    for a domain that is not plant, livestock or fish and only then; the
    three of the disease list when a disease is detected; two otherwise. *)
Theorem recommendations_by_domain file imageDomain r :
  classify file imageDomain = Some r →
  ∃ l, resolve file imageDomain = Some l ∧
    let c := classification r in
    (recommendations c = [] ↔ ¬ known_domain (l_domain l)) ∧
    (diseaseDetected c = true → length (recommendations c) = 3%nat) ∧
    (known_domain (l_domain l) → diseaseDetected c = false →
       length (recommendations c) = 2%nat).
Proof.
  intros H. apply classify_inv in H as (l & Hl & Hr). exists l. split; [done|].
  pose proof (assemble_disease _ _ _ _ Hr) as (Hdet & _).
  apply assemble_inv in Hr as (_ & _ & _ & _ & _ & Hrec & _). cbn zeta.
  rewrite Hrec. destruct (recommendations_for_cases (l_domain l)
                            (diseaseDetected (classification r))) as (H1 & H2 & H3).
  split_and!; [done | | done].
  intros Hd. apply H2; [|done]. by apply Hdet in Hd as [? _].
Qed.

End ReportFields.

Section Narrative.

Context {Upload Image : Type}.
Context (pil_image_from_upload : Upload → option Image).
Context (size : Image → Z * Z).
Context (crop : Image → Box → option Image).
Context (detect_objects : Image → option (list Detection)).
Context (classify_crop : Image → option ClsResult).
Context (start finish : float).

Local Abbreviation resolve :=
  (resolve Upload Image pil_image_from_upload size crop detect_objects classify_crop).
Local Abbreviation classify :=
  (classify Upload Image pil_image_from_upload size crop detect_objects classify_crop
     start finish).

(** X15. The narrative quotes the report's own numbers. Its percent is the
    [confidence] field and its label is the primary label, in the sentence
    of the domain: the animal sentence for livestock, the fish sentence for
    fish, and for plant the disease sentence when the label contains blight,
    mildew, rust, fungus or spot and the healthy sentence otherwise. *)
Theorem narrative_quotes_confidence file imageDomain r :
  classify file imageDomain = Some r →
  ∃ l, resolve file imageDomain = Some l ∧
    let pct := pretty (confidence (classification r)) in
    let label := l_primary_label l in
    (l_domain l = "livestock" →
       report r = "This looks like " +:+ label +:+ ". Confidence " +:+ pct
                    +:+ "%. The animal appears healthy.") ∧
    (l_domain l = "fish" →
       report r = "This appears to be a " +:+ label +:+ ". Confidence " +:+ pct
                    +:+ "%. The fish looks healthy.") ∧
    (l_domain l = "plant" → mentions narrative_tokens label →
       report r = "This plant shows signs of " +:+ label +:+ ". Confidence " +:+ pct
                    +:+ "%. Consider isolating the affected area and applying appropriate treatment.") ∧
    (l_domain l = "plant" → ¬ mentions narrative_tokens label →
       report r = "This appears to be a healthy plant or foliage (" +:+ label
                    +:+ "). Confidence " +:+ pct +:+ "%.").
Proof.
  intros H. apply classify_inv in H as (l & Hl & Hr). exists l. split; [done|].
  apply assemble_inv in Hr as (_ & _ & _ & _ & Hnar & _ & Hpct & _). cbn zeta.
  split_and!.
  - intros Hd. rewrite Hd in Hnar. unfold make_narrative in Hnar. rewrite Hpct in Hnar.
    cbn in Hnar. by injection Hnar as <-.
  - intros Hd. rewrite Hd in Hnar. unfold make_narrative in Hnar. rewrite Hpct in Hnar.
    cbn in Hnar. by injection Hnar as <-.
  - intros Hd Hm. rewrite Hd in Hnar.
    destruct (make_narrative_plant (l_primary_label l) _ (l_detections l) _ Hpct) as [H1 _].
    rewrite (H1 Hm) in Hnar. by injection Hnar as <-.
  - intros Hd Hm. rewrite Hd in Hnar.
    destruct (make_narrative_plant (l_primary_label l) _ (l_detections l) _ Hpct) as [_ H2].
    rewrite (H2 Hm) in Hnar. by injection Hnar as <-.
Qed.

End Narrative.

Lemma narrative_quotes_confidence_witness :
  ∃ r l, Stub.run Stub.sheep_photo None = Some r ∧
         Stub.locals Stub.sheep_photo None = Some l ∧
         l_domain l = "livestock" ∧
         report r = "This looks like " +:+ l_primary_label l +:+ ". Confidence "
                      +:+ pretty (confidence (classification r))
                      +:+ "%. The animal appears healthy.".
Proof.
  destruct (Stub.run Stub.sheep_photo None) as [r|] eqn:Hr; [|by vm_compute in Hr].
  destruct (narrative_quotes_confidence Stub.decode Stub.img_size Stub.crop Stub.detect
              Stub.classify_crop 0%float 0.25%float Stub.sheep_photo None r Hr)
    as (l & Hl & Hlive & _).
  assert (l_domain l = "livestock") as Hd.
  { pose proof Hl as Hl'. vm_compute in Hl'. by injection Hl' as <-. }
  exists r, l. split_and!; [done | exact Hl | exact Hd | exact (Hlive Hd)].
Defined.

Lemma affected_area_nonneg_witness :
  ∃ r, Stub.run Stub.overlap_photo None = Some r ∧
       affectedArea (classification r) = Some 2 ∧ 0 ≤ 2.
Proof.
  eexists. split_and!; [by vm_compute | done |].
  eapply (affected_area_nonneg Stub.decode Stub.img_size Stub.crop Stub.detect
            Stub.classify_crop 0%float 0.25%float Stub.overlap_photo None);
    [by vm_compute | done].
Defined.

Lemma recommendations_by_domain_witness :
  ∃ r, Stub.run Stub.blight_photo (Some "Plant") = Some r ∧
       recommendations (classification r) = [] ∧
       ∃ l, Stub.locals Stub.blight_photo (Some "Plant") = Some l ∧
            ¬ known_domain (l_domain l).
Proof.
  eexists. split_and!; [by vm_compute | done |].
  destruct (recommendations_by_domain Stub.decode Stub.img_size Stub.crop Stub.detect
              Stub.classify_crop 0%float 0.25%float Stub.blight_photo (Some "Plant") _
              ltac:(by vm_compute)) as (l & Hl & Hempty & _).
  exists l. split; [exact Hl|]. by apply Hempty.
Defined.

(** ** The model globals *)

Section ProcessFacts.

Context {Detector Classifier Transform Upload Image : Type}.
Context (run_detector : Detector → Image → option DetectorOutput).
Context (run_classifier : Classifier → Transform → Image → option Scores).
Context (pil_image_from_upload : Upload → option Image).
Context (size : Image → Z * Z).
Context (crop : Image → Box → option Image).
Context (start finish : float).

Local Abbreviation globals := (Globals Detector Classifier Transform).
Local Abbreviation loaders := (Loaders Detector Classifier Transform).
Local Abbreviation load_models' := (load_models Detector Classifier Transform).
Local Abbreviation health' := (health Detector Classifier Transform).
Local Abbreviation classify_crop_g' :=
  (classify_crop_g Detector Classifier Transform Image run_classifier).
Local Abbreviation detect_objects_g' :=
  (detect_objects_g Detector Classifier Transform Image run_detector).
Local Abbreviation classify_loop_g' :=
  (classify_loop_g Detector Classifier Transform Image run_classifier).
Local Abbreviation classify_g' :=
  (classify_g Detector Classifier Transform Upload Image run_detector run_classifier
     pil_image_from_upload size crop start finish).
Local Abbreviation warm_detect' :=
  (warm_detect Detector Image run_detector).
Local Abbreviation warm_classify' :=
  (warm_classify Classifier Transform Image run_classifier).
Local Abbreviation pure_classify d names c t labels :=
  (classify Upload Image pil_image_from_upload size crop (warm_detect' d names)
     (warm_classify' c t labels) start finish).

Lemma load_models_noop (ld : loaders) (g : globals) :
  is_Some (g_detector _ _ _ g) → is_Some (g_effnet _ _ _ g) →
  load_models' ld g = (g, Some ()).
Proof.
  intros [d Hd] [c Hc]. unfold load_models, bind, load_detector, load_effnet.
  by rewrite Hd, Hc.
Qed.

Lemma load_effnet_spec (ld : loaders) (g g' : globals) :
  coherent g → load_effnet _ _ _ ld g = (g', Some ()) →
  g_detector _ _ _ g' = g_detector _ _ _ g ∧
  is_Some (g_effnet _ _ _ g') ∧ is_Some (g_effnet_transform _ _ _ g') ∧
  is_Some (g_effnet_labels _ _ _ g') ∧
  (is_Some (g_effnet _ _ _ g) → g' = g).
Proof.
  intros Hco. unfold load_effnet, load_effnet_plain.
  destruct (g_effnet _ _ _ g) as [c|] eqn:Hc.
  { intros [= <-]. destruct Hco as [Ht Hl]; [by eexists|]. rewrite Hc.
    split_and!; [done | by eexists | done | done | done]. }
  destruct (effnet_imagenet _ _ _ ld) as [c|].
  - destruct (imagenet_transforms _ _ _ ld) as [t|].
    + intros [= <-]. cbn. split_and!; [done | by eexists.. | by intros [? ?]].
    + cbn. destruct (effnet_plain _ _ _ ld) as [c'|]; [|done].
      intros [= <-]. cbn. split_and!; [done | by eexists.. | by intros [? ?]].
  - destruct (effnet_plain _ _ _ ld) as [c'|]; [|done].
    intros [= <-]. cbn. split_and!; [done | by eexists.. | by intros [? ?]].
Qed.

Lemma load_detector_spec (ld : loaders) (g g' : globals) :
  load_detector _ _ _ ld g = (g', Some ()) →
  g_effnet _ _ _ g' = g_effnet _ _ _ g ∧
  g_effnet_transform _ _ _ g' = g_effnet_transform _ _ _ g ∧
  g_effnet_labels _ _ _ g' = g_effnet_labels _ _ _ g ∧
  (is_Some (g_detector _ _ _ g) → g' = g) ∧
  (g_detector _ _ _ g = None →
     ∃ d, g_detector _ _ _ g' = Some (d, coco_categories _ _ _ ld) ∨
          g_detector _ _ _ g' = Some (d, [])).
Proof.
  unfold load_detector. destruct (g_detector _ _ _ g) as [d|] eqn:Hd.
  { intros [= <-]. by split_and!. }
  destruct (detector_coco _ _ _ ld) as [d|].
  - intros [= <-]. cbn. split_and!; [done.. | by intros [? ?] |]. intros _. exists d. by left.
  - destruct (detector_plain _ _ _ ld) as [d|]; [|done].
    intros [= <-]. cbn. split_and!; [done.. | by intros [? ?] |]. intros _. exists d. by right.
Qed.

(** After a normal return of [load_models] all four globals are set. *)
Lemma load_models_loaded (ld : loaders) (g g' : globals) :
  coherent g → load_models' ld g = (g', Some ()) → loaded g'.
Proof.
  intros Hco H. unfold load_models, bind in H.
  destruct (load_detector _ _ _ ld g) as [g1 [[]|]] eqn:H1; [|done].
  apply load_detector_spec in H1 as (He & Ht & Hl & Hkeep & Hnew).
  assert (coherent g1) as Hco1. { unfold coherent. by rewrite He, Ht, Hl. }
  apply load_effnet_spec in H as (Hd & Hc' & Ht' & Hl' & _); [|done].
  split_and!; [|done..]. rewrite Hd. destruct (g_detector _ _ _ g) as [d|] eqn:Hg.
  - rewrite (Hkeep ltac:(by eexists)). by rewrite Hg.
  - destruct (Hnew eq_refl) as [d [-> | ->]]; by eexists.
Qed.

(** X16. What a normal return of [load_models] guarantees. From globals
    where the classifier, if present, has its transform and labels (a fresh
    process has none of them), all four globals are set afterwards; a model
    that was loaded before is kept as it was; and a detector loaded now
    carries the COCO categories or, from the fallback constructor, the empty
    label list. The same holds after [health], which answers the two fixed
    model names. *)
Theorem load_models_loads (ld : loaders) (g g' : globals) :
  coherent g → load_models' ld g = (g', Some ()) →
  loaded g' ∧ coherent g' ∧
  (is_Some (g_detector _ _ _ g) → g_detector _ _ _ g' = g_detector _ _ _ g) ∧
  (is_Some (g_effnet _ _ _ g) →
     g_effnet _ _ _ g' = g_effnet _ _ _ g ∧
     g_effnet_transform _ _ _ g' = g_effnet_transform _ _ _ g ∧
     g_effnet_labels _ _ _ g' = g_effnet_labels _ _ _ g) ∧
  (g_detector _ _ _ g = None →
     ∃ d, g_detector _ _ _ g' = Some (d, coco_categories _ _ _ ld) ∨
          g_detector _ _ _ g' = Some (d, [])) ∧
  health' ld g = (g', Some ("fasterrcnn_resnet50_fpn_coco", "efficientnet_b3_imagenet")).
Proof.
  intros Hco H. assert (health' ld g = (g', Some ("fasterrcnn_resnet50_fpn_coco",
                                                "efficientnet_b3_imagenet"))) as Hh.
  { unfold health, bind, ret. by rewrite H. }
  unfold load_models, bind in H.
  destruct (load_detector _ _ _ ld g) as [g1 [[]|]] eqn:H1; [|done].
  apply load_detector_spec in H1 as (He & Ht & Hl & Hkeep & Hnew).
  assert (coherent g1) as Hco1. { unfold coherent. by rewrite He, Ht, Hl. }
  apply load_effnet_spec in H as (Hd & Hc' & Ht' & Hl' & Hkeep'); [|done].
  assert (is_Some (g_detector _ _ _ g')) as Hdet.
  { rewrite Hd. destruct (g_detector _ _ _ g) as [d|] eqn:Hg.
    - rewrite (Hkeep ltac:(by eexists)). by rewrite Hg.
    - destruct (Hnew eq_refl) as [d [-> | ->]]; by eexists. }
  split_and!; [done | by intros _ | | | | done].
  - intros Hs. by rewrite Hd, (Hkeep Hs).
  - intros Hs. rewrite <- He in Hs. rewrite (Hkeep' Hs). by rewrite He, Ht, Hl.
  - intros Hn. rewrite Hd. by apply Hnew.
Qed.

(** The classification loop on warm globals: they stay as they are and the
    loop is the one over the classifier as a function. *)
Lemma classify_loop_g_warm (ld : loaders) (g : globals) d names c t boxes (i : nat)
    regions classified best :
  g_detector _ _ _ g = Some (d, names) → g_effnet _ _ _ g = Some c →
  g_effnet_transform _ _ _ g = Some t →
  classify_loop_g' ld boxes i regions classified best g
  = (g, classify_loop Image (warm_classify' c t (g_effnet_labels _ _ _ g)) boxes i regions
          classified best).
Proof.
  intros Hd Hc Ht. revert i classified best.
  induction regions as [|region regions IH]; intros i classified best; [done|].
  cbn [classify_loop_g classify_loop]. unfold bind at 1. unfold classify_crop_g, bind.
  rewrite (load_models_noop ld g) by (by eexists). rewrite Ht, Hc.
  unfold warm_classify. destruct (_ ≫= _) as [cls|]; [|done]. cbn.
  unfold lift. destruct (boxes !! i) as [box|]; [|done]. cbn. apply IH.
Qed.

Lemma classify_g_pure (ld : loaders) (g : globals) d names c t file imageDomain :
  g_detector _ _ _ g = Some (d, names) → g_effnet _ _ _ g = Some c →
  g_effnet_transform _ _ _ g = Some t →
  classify_g' ld file imageDomain g
  = (g, pure_classify d names c t (g_effnet_labels _ _ _ g) file imageDomain).
Proof.
  intros Hd Hc Ht. unfold classify_g, classify, resolve.
  unfold bind at 1. unfold lift at 1.
  destruct (pil_image_from_upload file) as [pil_img|]; [|done]. cbn [mbind option_bind].
  destruct (size pil_img) as [width height].
  unfold bind at 1. unfold detect_objects_g, bind at 1.
  rewrite (load_models_noop ld g) by (by eexists). rewrite Hd.
  fold (warm_detect' d names pil_img).
  destruct (warm_detect' d names pil_img) as [dets|]; [|done]. cbn [mbind option_bind].
  unfold bind at 1. unfold lift at 1.
  destruct (extract_regions _ _ _ _ _ _) as [[regions boxes]|]; [|done].
  cbn [mbind option_bind]. unfold bind at 1.
  rewrite (classify_loop_g_warm ld g d names c t) by done.
  destruct (classify_loop _ _ _ _ _ _ _) as [[classified [best_idx best_conf]]|]; [|done].
  cbn [mbind option_bind]. unfold bind, lift.
  destruct (classified !! best_idx) as [primary|]; [|done]. done.
Qed.

(** X17. A loaded model is never loaded again. With the detector and the
    classifier in place [load_models] returns normally and leaves the
    globals as they are, whatever the constructors would answer now; so do
    [detect_objects] and [classify_crop], whether they return or raise. *)
Theorem load_models_warm (ld : loaders) (g : globals) :
  is_Some (g_detector _ _ _ g) → is_Some (g_effnet _ _ _ g) →
  load_models' ld g = (g, Some ()) ∧
  (∀ image, (detect_objects_g' ld image g).1 = g) ∧
  (∀ image, (classify_crop_g' ld image g).1 = g).
Proof.
  intros Hd Hc. pose proof (load_models_noop ld g Hd Hc) as Hload.
  split_and!; [done | |].
  - intros image. unfold detect_objects_g, bind. rewrite Hload.
    by destruct (g_detector _ _ _ g) as [[? ?]|].
  - intros image. unfold classify_crop_g, bind. rewrite Hload.
    by destruct (g_effnet_transform _ _ _ g), (g_effnet _ _ _ g).
Qed.

(** X18. On warm globals a request is a function of its input. With the
    detector, the classifier and its transform loaded, [classify] leaves the
    globals as they are and returns what [classify] returns with the detector
    and the classifier taken as functions of the image. *)
Theorem classify_g_warm (ld : loaders) (g : globals) d names c t file imageDomain :
  g_detector _ _ _ g = Some (d, names) → g_effnet _ _ _ g = Some c →
  g_effnet_transform _ _ _ g = Some t →
  classify_g' ld file imageDomain g
  = (g, pure_classify d names c t (g_effnet_labels _ _ _ g) file imageDomain).
Proof. apply classify_g_pure. Qed.

(** The first call of [load_models] is the only one that matters. *)
Lemma classify_g_after_load (ld : loaders) (g g1 : globals) file imageDomain pil_img :
  pil_image_from_upload file = Some pil_img →
  load_models' ld g = (g1, Some ()) → coherent g →
  classify_g' ld file imageDomain g = classify_g' ld file imageDomain g1.
Proof.
  intros Himg Hload Hco.
  destruct (load_models_loaded ld g g1 Hco Hload) as (Hd & Hc & _).
  unfold classify_g. unfold bind at 1 6. unfold lift at 1 5. rewrite Himg.
  destruct (size pil_img) as [width height].
  unfold bind at 1 5. unfold detect_objects_g. unfold bind at 1 5.
  by rewrite Hload, (load_models_noop ld g1).
Qed.

(** The counts of a report made with the detector of the service. *)
Lemma report_counts d names classify_crop file imageDomain r :
  classify Upload Image pil_image_from_upload size crop (warm_detect' d names)
    classify_crop start finish file imageDomain = Some r →
  (length (detections r) ≤ 50)%nat ∧
  length (regions r) = Nat.max 1 (length (detections r)).
Proof.
  intros H. apply classify_inv in H as (l & Hl & Hr).
  apply resolve_inv in Hl as (img & regs & _ & _ & _ & Hdet & Hex & Hloop & _).
  apply assemble_inv in Hr as (_ & _ & _ & _ & _ & _ & _ & -> & ->).
  pose proof (extract_regions_lengths crop _ _ _ _ _ _ Hex) as (Hlen & Hmax & _).
  apply classify_loop_spec in Hloop as (news & Hnews & _ & Hn & _). cbn in Hnews.
  rewrite Hnews. split; [|lia].
  unfold warm_detect in Hdet. destruct (run_detector d img) as [outputs|]; [|done].
  cbn in Hdet. unfold detections_of in Hdet.
  destruct (out_boxes outputs) as [boxes|]; [|injection Hdet as <-; cbn; lia].
  destruct (out_labels outputs) as [labels|]; [|injection Hdet as <-; cbn; lia].
  destruct (out_scores outputs) as [scores|]; [|injection Hdet as <-; cbn; lia].
  apply detect_loop_spec in Hdet as (nd & -> & Hall).
  apply Forall2_length in Hall. rewrite length_seq in Hall. cbn [app]. lia.
Qed.

(** X19. A request on cold globals. From a fresh process, or from any
    globals where the classifier has its transform and labels, a request
    that returns a report leaves all four globals set; the report is the one
    of the function on the image with the models now loaded; it has at most
    50 detections and between 1 and 50 regions; and every later request
    leaves these globals as they are. *)
Theorem classify_g_cold (ld : loaders) (g g' : globals) file imageDomain r :
  coherent g →
  classify_g' ld file imageDomain g = (g', Some r) →
  loaded g' ∧
  ∃ d names c t,
    g_detector _ _ _ g' = Some (d, names) ∧ g_effnet _ _ _ g' = Some c ∧
    g_effnet_transform _ _ _ g' = Some t ∧
    pure_classify d names c t (g_effnet_labels _ _ _ g') file imageDomain = Some r ∧
    (length (detections r) ≤ 50)%nat ∧ (1 ≤ length (regions r) ≤ 50)%nat ∧
    ∀ ld' file' imageDomain',
      classify_g' ld' file' imageDomain' g'
      = (g', pure_classify d names c t (g_effnet_labels _ _ _ g') file' imageDomain').
Proof.
  intros Hco H.
  destruct (pil_image_from_upload file) as [pil_img|] eqn:Himg; cycle 1.
  { unfold classify_g, bind, lift in H. by rewrite Himg in H. }
  destruct (load_models' ld g) as [g1 [[]|]] eqn:Hload; cycle 1.
  { unfold classify_g in H. unfold bind at 1 in H. unfold lift at 1 in H.
    rewrite Himg in H. destruct (size pil_img) as [width height].
    unfold bind at 1 in H. unfold detect_objects_g in H. unfold bind at 1 in H.
    by rewrite Hload in H. }
  rewrite (classify_g_after_load ld g g1 file imageDomain pil_img Himg Hload Hco) in H.
  pose proof (load_models_loaded ld g g1 Hco Hload) as Hloaded.
  pose proof Hloaded as ([[d names] Hd] & [c Hc] & [t Ht] & _).
  rewrite (classify_g_pure ld g1 d names c t file imageDomain Hd Hc Ht) in H.
  injection H as <- Hr. split; [done|]. exists d, names, c, t.
  destruct (report_counts _ _ _ _ _ _ Hr) as [H50 Hmax].
  split_and!; [done | done | done | done | done | lia | lia |].
  intros ld' file' imageDomain'. by apply classify_g_pure.
Qed.

End ProcessFacts.

Lemma load_models_warm_witness :
  load_models unit unit unit StubNet.loaders StubNet.warm = (StubNet.warm, Some ()).
Proof.
  apply (load_models_warm StubNet.run_detector StubNet.run_classifier StubNet.loaders
           StubNet.warm); by eexists.
Defined.

Lemma load_models_loads_witness :
  coherent (@cold unit unit unit) ∧
  load_models unit unit unit StubNet.loaders cold = (StubNet.warm, Some ()) ∧
  loaded StubNet.warm.
Proof.
  assert (coherent (@cold unit unit unit)) as Hco by by intros [? ?].
  split_and!; [exact Hco | done |].
  apply (load_models_loads StubNet.loaders cold StubNet.warm Hco eq_refl).
Defined.

Lemma classify_g_warm_witness :
  StubNet.run_g Stub.sheep_photo None StubNet.warm
  = (StubNet.warm,
     classify Stub.image Stub.image Stub.decode Stub.img_size Stub.crop
       (warm_detect unit Stub.image StubNet.run_detector () ["background"; "sheep"])
       (warm_classify unit unit Stub.image StubNet.run_classifier () ()
          (Some ["sheep"; "goat"]))
       0%float 0.25%float Stub.sheep_photo None).
Proof.
  apply (classify_g_warm StubNet.run_detector StubNet.run_classifier Stub.decode
           Stub.img_size Stub.crop 0%float 0.25%float StubNet.loaders StubNet.warm
           () ["background"; "sheep"] () () Stub.sheep_photo None eq_refl eq_refl eq_refl).
Defined.

Lemma classify_g_cold_witness :
  ∃ r, StubNet.run_g Stub.sheep_photo None cold = (StubNet.warm, Some r) ∧
       loaded StubNet.warm ∧ diseaseName (classification r) = "sheep".
Proof.
  eexists. split; [by vm_compute|]. split; [|done].
  apply (classify_g_cold StubNet.run_detector StubNet.run_classifier Stub.decode
           Stub.img_size Stub.crop 0%float 0.25%float StubNet.loaders cold StubNet.warm
           Stub.sheep_photo None _ ltac:(by intros [? ?]) ltac:(by vm_compute)).
Defined.

(** ** The confidence of the report as a percentage *)

(** *** The right shift of the rounding *)

Lemma shr_1_spec (mrs : shr_record) :
  0 ≤ shr_m mrs →
  shr_m (shr_1 mrs) = shr_m mrs / 2 ∧
  shr_r (shr_1 mrs) = Z.odd (shr_m mrs) ∧
  shr_s (shr_1 mrs) = (shr_r mrs || shr_s mrs)%bool.
Proof.
  destruct mrs as [m r s]. cbn. intros Hm.
  destruct m as [|[p|p|]|p]; cbn; try lia; split_and!; try done.
  - rewrite Pos2Z.inj_xI. apply Z.div_unique with 1; lia.
  - rewrite Pos2Z.inj_xO. apply Z.div_unique with 0; lia.
Qed.


Lemma shr_1_inv (m0 k : Z) (mrs : shr_record) :
  0 ≤ m0 → 0 ≤ k → shr_inv m0 k mrs → shr_inv m0 (k + 1) (shr_1 mrs).
Proof.
  intros Hm Hk [Hq Hr].
  assert (0 < 2 ^ k) as Hd by (apply Z.pow_pos_nonneg; lia).
  assert (0 ≤ shr_m mrs) as Hpos by (rewrite Hq; apply Z.div_pos; lia).
  destruct (shr_1_spec mrs Hpos) as (H1 & H2 & H3).
  unfold shr_inv. rewrite Z.pow_add_r, Z.pow_1_r by lia. split.
  - rewrite H1, Hq. rewrite Z.div_div; lia.
  - intros Hmod. rewrite H2, H3.
    assert (m0 mod 2 ^ k = 0 ∧ (m0 / 2 ^ k) mod 2 = 0) as [Hm1 Hm2].
    { rewrite Z.rem_mul_r in Hmod by lia.
      pose proof (Z.mod_pos_bound m0 (2 ^ k) Hd).
      pose proof (Z.mod_pos_bound (m0 / 2 ^ k) 2 ltac:(lia)). nia. }
    destruct (Hr Hm1) as [-> ->]. split; [|done].
    rewrite Hq, <- Z.negb_even. rewrite Zeven_mod, Hm2. done.
Qed.

Lemma iter_shr_inv (p : positive) (m0 k : Z) (mrs : shr_record) :
  0 ≤ m0 → 0 ≤ k → shr_inv m0 k mrs → shr_inv m0 (k + Z.pos p) (@SpecFloat.iter_pos shr_record shr_1 p mrs).
Proof.
  intros Hm. revert k mrs. induction p as [p IH|p IH|]; intros k mrs Hk Hinv; cbn [iter_pos].
  - replace (k + Z.pos p~1) with (k + 1 + Z.pos p + Z.pos p) by lia.
    apply IH; [lia|]. apply IH; [lia|]. by apply shr_1_inv.
  - replace (k + Z.pos p~0) with (k + Z.pos p + Z.pos p) by lia.
    apply IH; [lia|]. by apply IH.
  - by apply shr_1_inv.
Qed.


Lemma digits2_pos_size (p : positive) : digits2_pos p = Pos.size p.
Proof. induction p as [p IH|p IH|]; cbn; by rewrite ?IH. Qed.

Lemma Zdigits2_le (m k : Z) : 0 ≤ m → 0 ≤ k → m < 2 ^ k → Zdigits2 m ≤ k.
Proof.
  intros Hm Hk Hlt. destruct m as [|p|p]; [done | | lia]. cbn. rewrite digits2_pos_size.
  pose proof (Pos.size_le p) as Hs. apply Pos2Z.pos_le_pos in Hs.
  rewrite Pos2Z.inj_pow, (Pos2Z.inj_xO p) in Hs.
  destruct (Z.le_gt_cases (Z.pos (Pos.size p)) k) as [|Hgt]; [done|]. exfalso.
  assert (2 ^ (k + 1) ≤ 2 ^ Z.pos (Pos.size p)) by (apply Z.pow_le_mono_r; lia).
  rewrite Z.pow_add_r, Z.pow_1_r in * by lia. lia.
Qed.

Lemma Zdigits2_gt (p : positive) : Z.pos p < 2 ^ Zdigits2 (Z.pos p).
Proof.
  cbn [Zdigits2]. rewrite digits2_pos_size. pose proof (Pos.size_gt p) as Hs.
  apply Pos2Z.pos_lt_pos in Hs. by rewrite Pos2Z.inj_pow in Hs.
Qed.

Lemma shr_fexp_at_most_100 (m e : Z) :
  0 ≤ m → at_most_100 m e →
  let '(mrs, e') := shr_fexp prec emax m e loc_Exact in
  0 ≤ shr_m mrs ∧ at_most_100 (shr_m mrs) e' ∧
  0 ≤ round_nearest_even (shr_m mrs) (loc_of_shr_record mrs) ∧
  at_most_100 (round_nearest_even (shr_m mrs) (loc_of_shr_record mrs)) e'.
Proof.
  intros Hm [He Hle]. unfold shr_fexp, shr.
  assert (0 < 2 ^ (- e)) as Hpe by (apply Z.pow_pos_nonneg; lia).
  assert (Zdigits2 m + e ≤ 7) as Hdig.
  { assert (Zdigits2 m ≤ 7 - e); [|lia]. apply Zdigits2_le; [lia..|].
    replace (7 - e) with (7 + - e) by lia. rewrite Z.pow_add_r by lia.
    change (2 ^ 7) with 128. lia. }
  assert (fexp prec emax (Zdigits2 m + e) ≤ 0) as Hf.
  { unfold fexp, emin, prec, emax. lia. }
  destruct (fexp prec emax (Zdigits2 m + e) - e) as [|n|n] eqn:Hn.
  - cbn. split_and!; [done | done | done | done].
  - pose proof (iter_shr_inv n m 0 (shr_record_of_loc m loc_Exact) Hm ltac:(lia)) as Hinv.
    destruct Hinv as [Hq Hex].
    { split; [cbn; by rewrite Z.div_1_r | done]. }
    replace (0 + Z.pos n) with (Z.pos n) in * by lia.
    set (mrs := @SpecFloat.iter_pos shr_record shr_1 n (shr_record_of_loc m loc_Exact)) in *.
    set (e' := e + Z.pos n) in *.
    assert (e' ≤ 0) as He' by lia.
    assert (0 < 2 ^ Z.pos n) as Hpn by (apply Z.pow_pos_nonneg; lia).
    assert (0 < 2 ^ (- e')) as Hpe' by (apply Z.pow_pos_nonneg; lia).
    assert (2 ^ (- e) = 2 ^ (- e') * 2 ^ Z.pos n) as Hsplit.
    { rewrite <- Z.pow_add_r by lia. f_equal. lia. }
    assert (0 ≤ shr_m mrs) as Hq0 by (rewrite Hq; apply Z.div_pos; lia).
    assert (shr_m mrs ≤ 100 * 2 ^ (- e')) as HqK.
    { rewrite Hq. apply Z.div_le_upper_bound; [done|]. rewrite Hsplit in Hle. lia. }
    split_and!; [done | done | |].
    + destruct (loc_of_shr_record mrs) as [|[]]; cbn; [done | | done | lia].
      destruct (Z.even _); lia.
    + split; [done|].
      destruct (decide (shr_m mrs = 100 * 2 ^ (- e'))) as [Heq|Hne].
      * assert (m mod 2 ^ Z.pos n = 0) as Hmod.
        { pose proof (Z.div_mod m (2 ^ Z.pos n) ltac:(lia)) as Hdm.
          pose proof (Z.mod_pos_bound m (2 ^ Z.pos n) Hpn). rewrite <- Hq, Heq in Hdm.
          rewrite Hsplit in Hle. nia. }
        destruct (Hex Hmod) as [Hr Hs]. destruct mrs as [mm rr ss]. cbn in *.
        subst rr ss. cbn. lia.
      * assert (shr_m mrs + 1 ≤ 100 * 2 ^ (- e')) by lia.
        destruct (loc_of_shr_record mrs) as [|[]]; cbn; [lia | | lia | lia].
        destruct (Z.even _); lia.
  - cbn. split_and!; [done | done | done | done].
Qed.

Lemma binary_round_aux_at_most_100 (P E : Z) :
  0 ≤ P → at_most_100 P E →
  match binary_round_aux prec emax false P E loc_Exact with
  | S754_zero _ => True
  | S754_finite s m e => s = false ∧ at_most_100 (Z.pos m) e
  | _ => False
  end.
Proof.
  intros HP HV. unfold binary_round_aux.
  pose proof (shr_fexp_at_most_100 P E HP HV) as H1.
  destruct (shr_fexp prec emax P E loc_Exact) as [mrs' e'].
  destruct H1 as (_ & _ & Hm1 & HV1).
  pose proof (shr_fexp_at_most_100 _ e' Hm1 HV1) as H2.
  destruct (shr_fexp prec emax _ e' loc_Exact) as [mrs'' e''].
  destruct H2 as (Hm2 & HV2 & _).
  destruct (shr_m mrs'') as [|m|m]; [done | | lia].
  destruct HV2 as [He Hle]. rewrite (proj2 (Z.leb_le e'' (emax - prec))).
  - done.
  - unfold emax, prec. lia.
Qed.

Lemma finite_round_at_most_100 (m : positive) (e : Z) :
  at_most_100 (Z.pos m) e → 0 ≤ finite_to_Z half_even false m e ≤ 100.
Proof.
  intros [He Hle]. split; [apply finite_round_nonneg|].
  unfold finite_to_Z. destruct (Z.leb_spec 0 e).
  - replace e with 0 in * by lia. cbn in Hle. lia.
  - assert (0 < 2 ^ (- e)) as Hd by (apply Z.pow_pos_nonneg; lia).
    unfold half_even. set (d := 2 ^ (- e)) in *.
    pose proof (Z.div_mod (Z.pos m) d ltac:(lia)) as Hdm.
    pose proof (Z.mod_pos_bound (Z.pos m) d Hd) as Hr.
    assert (Z.pos m / d ≤ 100) as Hq by (apply Z.div_le_upper_bound; lia).
    destruct (Z.compare_spec (2 * (Z.pos m mod d)) d); [| lia |].
    + destruct (Z.even _); [lia|]. nia.
    + nia.
Qed.

Lemma valid_conf_at_most_1 (c : float) :
  valid_conf c →
  (∃ s, Prim2SF c = S754_zero s) ∨
  (∃ m e, Prim2SF c = S754_finite false m e ∧ e ≤ -52 ∧ Z.pos m ≤ 2 ^ (- e)).
Proof.
  intros [H0 H1]. rewrite leb_spec in H0, H1. pose proof (Prim2SF_valid c) as Hv.
  change (Prim2SF 0) with (S754_zero false) in H0.
  change (Prim2SF 1) with (S754_finite false 4503599627370496 (-52)) in H1.
  destruct (Prim2SF c) as [s|s| |s m e]; [left; by eexists | by destruct s | done |].
  right. destruct s; [done|]. exists m, e. split; [done|].
  change (bounded prec emax m e = true) in Hv.
  apply andb_prop in Hv as [Hcan _]. unfold canonical_mantissa in Hcan.
  apply Z.eqb_eq in Hcan. unfold fexp, emin, prec, emax in Hcan.
  pose proof (Zdigits2_gt m) as Hdig. cbn [Zdigits2] in Hdig.
  unfold SFleb, SFcompare in H1.
  destruct (Z.compare_spec e (-52)) as [-> | Hlt | Hgt]; [| | done].
  - split; [done|]. change (2 ^ (- -52)) with (Z.pos 4503599627370496).
    clear Hcan Hdig H0. apply Pos2Z.pos_le_pos.
    unfold Pos.le, Pos.compare.
    by destruct (Pos.compare_cont Eq m 4503599627370496).
  - split; [lia|].
    assert (Z.pos (digits2_pos m) ≤ 53) as H53 by lia.
    assert (2 ^ Z.pos (digits2_pos m) ≤ 2 ^ 53) by (apply Z.pow_le_mono_r; lia).
    assert (2 ^ 53 ≤ 2 ^ (- e)) by (apply Z.pow_le_mono_r; lia).
    clear Hcan H0 H1. lia.
Qed.

(** The percentage of a confidence in [[0, 1]] is computed, and lies
    between 0 and 100: the product by 100 is rounded to a float that is at
    most 100, and so is its rounding to an integer. *)
Lemma percent_range (c : float) :
  valid_conf c → ∃ p, percent c = Some p ∧ 0 ≤ p ≤ 100.
Proof.
  intros Hc. unfold percent, py_round. rewrite mul_spec.
  change (Prim2SF 100) with (S754_finite false 7036874417766400 (-46)).
  destruct (valid_conf_at_most_1 c Hc) as [[s ->] | (m & e & -> & He & Hm)].
  - exists 0. split; [done | lia].
  - unfold SF64mul, SFmul. cbn [xorb].
    assert (at_most_100 (Z.pos (m * 7036874417766400)) (e + -46)) as HV.
    { split; [lia|]. rewrite Pos2Z.inj_mul.
      replace (- (e + -46)) with (- e + 46) by lia. rewrite Z.pow_add_r by lia.
      change (2 ^ 46) with 70368744177664. lia. }
    pose proof (binary_round_aux_at_most_100 _ _ (Pos2Z.is_nonneg _) HV) as Hr.
    destruct (binary_round_aux _ _ _ _ _ _) as [s|s| |s m' e']; [| done | done |].
    + exists 0. split; [done | lia].
    + destruct Hr as [-> HV']. eexists. split; [reflexivity|].
      by apply finite_round_at_most_100.
Qed.

(** A confidence of the data model beats the initial [-1.0]. *)
Lemma valid_conf_beats_initial (c : float) : valid_conf c → ((-1.0) <? c)%float = true.
Proof. intros [H0 _]. by apply (ltb_leb_trans _ 0%float). Qed.

Section ConfidencePercent.

Context {Upload Image : Type}.
Context (pil_image_from_upload : Upload → option Image).
Context (size : Image → Z * Z).
Context (crop : Image → Box → option Image).
Context (detect_objects : Image → option (list Detection)).
Context (classify_crop : Image → option ClsResult).
Context (start finish : float).

Local Abbreviation resolve :=
  (resolve Upload Image pil_image_from_upload size crop detect_objects classify_crop).
Local Abbreviation assemble := (assemble start finish).
Local Abbreviation classify :=
  (classify Upload Image pil_image_from_upload size crop detect_objects classify_crop
     start finish).

(** X20. The confidence of the report (line 286). When the confidences of
    the classified regions are floats in [[0, 1]], as the softmax of line 106
    gives them, the reported confidence is the percentage of the confidence
    of one of the regions and lies between 0 and 100. *)
Theorem confidence_percent_range file imageDomain r :
  classify file imageDomain = Some r →
  Forall valid_conf (entry_confidence <$> regions r) →
  (∃ e, e ∈ regions r ∧ percent (entry_confidence e) = Some (confidence (classification r))) ∧
  0 ≤ confidence (classification r) ≤ 100.
Proof.
  intros H Hall. apply classify_inv in H as (l & Hl & Hr).
  pose proof (resolve_selects_best _ _ _ _ _ _ _ _ Hl) as [Hbest (e0 & He0 & _)].
  apply assemble_inv in Hr as (_ & _ & _ & _ & _ & _ & Hpct & _ & Hreg).
  rewrite Hreg in *. clear Hreg. unfold select_best in Hbest.
  assert (∃ e, e ∈ l_classified_regions l ∧ entry_confidence e = l_best_conf l)
    as (e & He & Hc).
  { destruct (select_from_cases (entry_confidence <$> l_classified_regions l) 0
                (0%nat, (-1.0)%float)) as [[_ Hnone] | (j & Hj & _ & _)];
      rewrite <- ?Hbest in *; cbn [fst snd] in *.
    - exfalso. destruct (l_classified_regions l) as [|e1 es]; [done|].
      apply Forall_cons in Hnone as [Hnone _]. apply Forall_cons in Hall as [Hv _].
      apply valid_conf_beats_initial in Hv. congruence.
    - rewrite list_lookup_fmap in Hj.
      destruct (l_classified_regions l !! j) as [e|] eqn:Hej; [|done].
      injection Hj as Hj. exists e. split; [by eapply list_elem_of_lookup_2 | done]. }
  assert (valid_conf (l_best_conf l)) as Hv.
  { rewrite <- Hc. rewrite Forall_forall in Hall. apply Hall.
    apply list_elem_of_fmap. by exists e. }
  split.
  - exists e. by rewrite Hc.
  - destruct (percent_range _ Hv) as (p & Hp & Hrange). by simplify_eq.
Qed.

End ConfidencePercent.

Lemma confidence_percent_range_witness :
  ∃ r, Stub.run Stub.sheep_photo None = Some r ∧
       Forall valid_conf (entry_confidence <$> regions r) ∧
       0 ≤ confidence (classification r) ≤ 100.
Proof.
  eexists. split; [by vm_compute|].
  assert (Forall valid_conf [0.88%float]) as Hall by by repeat constructor.
  split; [exact Hall|].
  exact (proj2 (confidence_percent_range Stub.decode Stub.img_size Stub.crop Stub.detect
                  Stub.classify_crop 0%float 0.25%float Stub.sheep_photo None _
                  ltac:(by vm_compute) Hall)).
Defined.

(** ** The result of [classify_crop] *)

(** A class index that is not negative always has a label. *)
Lemma effnet_label_nonneg (labels : option (list string)) (idx : Z) :
  0 ≤ idx → is_Some (effnet_label labels idx).
Proof.
  intros Hi. unfold effnet_label. destruct labels as [names|]; [|by eexists].
  destruct (bool_decide (names ≠ [])); cbn [andb]; [|by eexists].
  destruct (Z.ltb_spec idx (Z.of_nat (length names))); [|by eexists].
  rewrite py_getitem_nonneg by done. apply lookup_lt_is_Some. lia.
Qed.

(** The loop over the top three appends one pair per score, in order, each
    with the score's confidence and the label of its index. *)
Lemma top3_loop_spec (labels : option (list string)) (pairs : list (float * Z))
    (top3 : list (string * float)) :
  Forall (λ p, 0 ≤ p.2) pairs →
  ∃ news, top3_loop labels pairs top3 = Some (top3 ++ news) ∧
    Forall2 (λ p e, e.2 = p.1 ∧ effnet_label labels p.2 = Some e.1) pairs news.
Proof.
  revert top3. induction pairs as [|[c li] pairs IH]; intros top3 Hall.
  - exists []. rewrite app_nil_r. by split; [|constructor].
  - apply Forall_cons in Hall as [Hli Hall]. cbn in Hli. cbn [top3_loop].
    destruct (effnet_label_nonneg labels li Hli) as [ln Hln]. rewrite Hln. cbn.
    destruct (IH (top3 ++ [(ln, c)]) Hall) as (news & -> & Hnews).
    exists ((ln, c) :: news). rewrite <- app_assoc. split; [done|].
    by constructor.
Qed.

(** X21. What [classify_crop] makes of the classifier's scores (lines 108
    to 120). On class indices that are not negative it returns: the
    confidence is the maximum's, the label is the label of the maximum's
    index, [top3] has one pair per score of the [topk], in order, with the
    score's confidence and the label of its index under the same rule; so
    when the first of the top three is the maximum, the first pair of [top3]
    repeats the result's own label. *)
Theorem classify_crop_result (labels : option (list string)) (s : Scores) :
  0 ≤ sc_idx s → Forall (λ p, 0 ≤ p.2) (sc_top3 s) →
  ∃ r, result_of labels s = Some r ∧
    cls_confidence r = sc_conf s ∧
    effnet_label labels (sc_idx s) = Some (cls_label r) ∧
    Forall2 (λ p e, e.2 = p.1 ∧ effnet_label labels p.2 = Some e.1)
      (sc_top3 s) (cls_top3 r) ∧
    (∀ c rest, sc_top3 s = (c, sc_idx s) :: rest →
       head (cls_top3 r) = Some (cls_label r, c)).
Proof.
  intros Hidx Hall. unfold result_of.
  destruct (effnet_label_nonneg labels (sc_idx s) Hidx) as [label Hlabel].
  destruct (top3_loop_spec labels (sc_top3 s) [] Hall) as (top3 & Hloop & Htop).
  rewrite Hlabel, Hloop. cbn. eexists. split_and!; [done..|].
  intros c rest Hs. rewrite Hs in Htop.
  apply Forall2_cons_inv_l in Htop as ([ln c'] & top3' & [Hc Hln] & _ & ->).
  cbn in Hc, Hln. rewrite Hlabel in Hln. by simplify_eq.
Qed.

Lemma classify_crop_result_witness :
  ∃ r, result_of (Some ["sheep"; "goat"])
         (mkScores 0.88 0 [(0.88%float, 0); (0.07%float, 1); (0.01%float, 5)]) = Some r ∧
       cls_top3 r = [("sheep", 0.88%float); ("goat", 0.07%float); ("5", 0.01%float)] ∧
       head (cls_top3 r) = Some (cls_label r, 0.88%float).
Proof.
  destruct (classify_crop_result (Some ["sheep"; "goat"])
              (mkScores 0.88 0 [(0.88%float, 0); (0.07%float, 1); (0.01%float, 5)])
              ltac:(done) ltac:(by repeat constructor))
    as (r & Hr & _ & _ & _ & Hhead).
  exists r. split; [exact Hr|]. split; [|by eapply Hhead].
  vm_compute in Hr. by injection Hr as <-.
Defined.
